(** * Shear-band scripts: command line, parameter dictionaries, Picard driver

    A shallow embedding of the control logic written directly in
    [underworld2/isotropic.py] and [underworld2/ti_model.py]:

    - the positional [Model] / [ModNum] arguments,
    - the [dict.key=value] / [dict.key*=value] override loop on the
      EasyDict dictionaries [dp] and [md],
    - the construction of the scale factors [sf] and of the
      non-dimensional dictionary [ndp],
    - the manual Picard loop with its three residual histories,
    - the CSV writer,
    - the mesh box with its sticky-air switch,
    - [nn_evaluation], and
    - the selection of the shear-band points and the two indicator functions
      of the shear band.

    Python floats are IEEE binary64 numbers ([PrimFloat.float]).  What the
    scripts call into (the builtins [float()] and [int()], [math] / [numpy],
    the Underworld mesh, integrals and linear solver) is taken as a
    parameter, bundled in the records [Builtins], [MathLib] and [Sim]. *)

From Stdlib Require Import ZArith QArith Qabs Floats Ascii String DecimalString.
From Stdlib Require DecimalPos DecimalZ.
From stdpp Require Import gmap strings list sorting.

Set Warnings "-inexact-float".
Set Default Proof Using "Type".

Local Open Scope Z_scope.

(** ** Python strings *)

Module PyStr.

(** [sub in s] *)
Fixpoint contains (sub s : string) : bool :=
  String.prefix sub s ||
  match s with
  | EmptyString => false
  | String _ s' => contains sub s'
  end.

(** [s.startswith(p)] *)
Definition startswith (p s : string) : bool := String.prefix p s.

(** [s.split(sep)] for a non-empty separator: the pieces between the
    non-overlapping occurrences of [sep], scanned from the left.  [skip]
    counts the characters of a matched separator still to be dropped and
    [acc] is the piece being read. *)
Fixpoint split_aux (sep : string) (skip : nat) (acc s : string) : list string :=
  match s with
  | EmptyString => [acc]
  | String c s' =>
      match skip with
      | S k => split_aux sep k acc s'
      | O =>
          if String.prefix sep s
          then acc :: split_aux sep (String.length sep - 1) "" s'
          else split_aux sep 0 (acc +:+ String c "") s'
      end
  end.

Definition split (sep s : string) : list string := split_aux sep 0 "" s.

(** [c] occurs in [s] *)
Fixpoint has_char (c : ascii) (s : string) : bool :=
  match s with
  | EmptyString => false
  | String c' s' => if Ascii.eqb c c' then true else has_char c s'
  end.

(** last character of [s] is [c] *)
Fixpoint ends_with_char (c : ascii) (s : string) : bool :=
  match s with
  | EmptyString => false
  | String c' EmptyString => Ascii.eqb c c'
  | String _ s' => ends_with_char c s'
  end.

(** [s * n] *)
Fixpoint repeat_str (s : string) (n : nat) : string :=
  match n with
  | O => ""
  | S k => s +:+ repeat_str s k
  end.

End PyStr.

(** ** Python values held by the parameter dictionaries *)

Inductive pyval : Type :=
  | VBool (b : bool)
  | VInt (z : Z)
  | VFloat (f : float)
  | VStr (s : string).

Inductive exn : Type :=
  ValueError | KeyError | TypeError | OverflowError | ZeroDivisionError | AttributeError.

Inductive result (A : Type) : Type :=
  | Ok (a : A)
  | Raise (e : exn).
Arguments Ok {A} a.
Arguments Raise {A} e.

#[global] Instance result_ret : MRet result := fun A a => Ok a.

#[global] Instance result_bind : MBind result := fun A B k r =>
  match r with
  | Ok a => k a
  | Raise e => Raise e
  end.

Module PyNum.

(** [float(z)] for an int: correctly rounded, [OverflowError] when the int is
    too large for a binary64. *)
Definition float_of_Z (z : Z) : result float :=
  let f := SF2Prim (binary_normalize prec emax z 0 false) in
  if PrimFloat.is_infinity f then Raise OverflowError else Ok f.

(** [int(f)] for a float: truncation toward zero; infinities and NaN raise. *)
Definition int_of_float (f : float) : result Z :=
  match Prim2SF f with
  | S754_zero _ => Ok 0
  | S754_finite s m e =>
      let a := if e <? 0 then Z.shiftr (Z.pos m) (- e) else Z.shiftl (Z.pos m) e in
      Ok (if s then - a else a)
  | S754_infinity _ => Raise OverflowError
  | S754_nan => Raise ValueError
  end.

Definition Z_of_bool (b : bool) : Z := if b then 1 else 0.

(** [a * b].  [bool] is a subclass of [int]; a string times an int repeats the
    string; a float operand makes the product a float; every other
    combination with a string is a [TypeError]. *)
Definition mul_int (x : Z) (v : pyval) : result pyval :=
  match v with
  | VBool b => Ok (VInt (x * Z_of_bool b))
  | VInt y => Ok (VInt (x * y))
  | VFloat g =>
      match float_of_Z x with
      | Ok f => Ok (VFloat (PrimFloat.mul f g))
      | Raise e => Raise e
      end
  | VStr s => Ok (VStr (PyStr.repeat_str s (Z.to_nat x)))
  end.

Definition py_mul (a b : pyval) : result pyval :=
  match a with
  | VBool x => mul_int (Z_of_bool x) b
  | VInt x => mul_int x b
  | VFloat f =>
      match b with
      | VBool y =>
          match float_of_Z (Z_of_bool y) with
          | Ok g => Ok (VFloat (PrimFloat.mul f g))
          | Raise e => Raise e
          end
      | VInt y =>
          match float_of_Z y with
          | Ok g => Ok (VFloat (PrimFloat.mul f g))
          | Raise e => Raise e
          end
      | VFloat g => Ok (VFloat (PrimFloat.mul f g))
      | VStr _ => Raise TypeError
      end
  | VStr s =>
      match b with
      | VBool y => Ok (VStr (PyStr.repeat_str s (Z.to_nat (Z_of_bool y))))
      | VInt y => Ok (VStr (PyStr.repeat_str s (Z.to_nat y)))
      | VFloat _ | VStr _ => Raise TypeError
      end
  end.

End PyNum.

(** ** Builtins whose exact behaviour depends on the interpreter *)

Record Builtins : Type := {
  (** [float(s)] on a string; [None] is [ValueError] *)
  float_of_str : string -> option float;
  (** [int(s)] on a string; [None] is [ValueError] *)
  int_of_str : string -> option Z;
  (** [a / b] on two ints (floor division or true division) *)
  int_div : Z -> Z -> result pyval;
  (** [x < s] for a float and a string *)
  lt_float_str : float -> string -> result bool
}.


(** ** [math], [numpy] and the C library *)

Record MathLib : Type := {
  np_radians : pyval -> result pyval;
  np_cos : pyval -> result pyval;
  math_sin : pyval -> result pyval;
  math_tan : pyval -> result pyval;
  (** [x ** n] on a float *)
  float_pow : float -> Z -> result float
}.

Module PyOps.

Definition as_float (v : pyval) : result float :=
  match v with
  | VBool b => PyNum.float_of_Z (PyNum.Z_of_bool b)
  | VInt z => PyNum.float_of_Z z
  | VFloat f => Ok f
  | VStr _ => Raise TypeError
  end.

Definition as_int (v : pyval) : option Z :=
  match v with
  | VBool b => Some (PyNum.Z_of_bool b)
  | VInt z => Some z
  | _ => None
  end.

Definition is_str (v : pyval) : bool :=
  match v with VStr _ => true | _ => false end.

(** [a / b]: two ints divide as the interpreter says; otherwise the operands
    are floats and a zero divisor raises. *)
Definition py_div (B : Builtins) (a b : pyval) : result pyval :=
  if is_str a || is_str b then Raise TypeError
  else match as_int a, as_int b with
       | Some x, Some y => int_div B x y
       | _, _ =>
           x ← as_float a;
           y ← as_float b;
           if PrimFloat.eqb y 0%float then Raise ZeroDivisionError
           else Ok (VFloat (PrimFloat.div x y))
       end.

(** [a ** n] for a literal exponent [n >= 0] *)
Definition py_pow (L : MathLib) (a : pyval) (n : Z) : result pyval :=
  match a with
  | VStr _ => Raise TypeError
  | VFloat f => x ← float_pow L f n; Ok (VFloat x)
  | VBool b => Ok (VInt (PyNum.Z_of_bool b ^ n))
  | VInt z => Ok (VInt (z ^ n))
  end.

(** [d.k] on an EasyDict *)
Definition attr (d : gmap string pyval) (k : string) : result pyval :=
  match d !! k with
  | Some v => Ok v
  | None => Raise AttributeError
  end.

(** [math.pi] *)
Definition math_pi : float := 0x1.921fb54442d18p+1%float.

End PyOps.

(** ** The parameter dictionaries and the override loop *)

(** The two EasyDict objects the command line can reach. *)
Record dicts : Type := {
  dp : gmap string pyval;   (* dimensional parameters *)
  md : gmap string pyval    (* modelling choices and physics switches *)
}.

Inductive dictname : Type := DP | MD.

Definition sel (d : dictname) (s : dicts) : gmap string pyval :=
  match d with DP => dp s | MD => md s end.

Definition upd (d : dictname) (f : gmap string pyval -> gmap string pyval) (s : dicts) : dicts :=
  match d with
  | DP => {| dp := f (dp s); md := md s |}
  | MD => {| dp := dp s; md := f (md s) |}
  end.

(** Statements of a [try] block: they read and write the dictionaries and may
    raise.  What was written before an exception stays written. *)
Definition M (A : Type) : Type := dicts -> result A * dicts.

#[global] Instance M_ret : MRet M := fun A a s => (Ok a, s).

#[global] Instance M_bind : MBind M := fun A B k m s =>
  match m s with
  | (Ok a, s') => k a s'
  | (Raise e, s') => (Raise e, s')
  end.

Definition lift {A : Type} (r : result A) : M A := fun s => (r, s).

(** [d[k]] *)
Definition getitem (d : dictname) (k : string) : M pyval := fun s =>
  match sel d s !! k with
  | Some v => (Ok v, s)
  | None => (Raise KeyError, s)
  end.

(** [dp] and [md] are EasyDict objects, whose [d[k] = v] is
    [setattr(d, k, v)] followed by the assignment of the underlying [dict].
    Three names belong to the object itself and take no value that a token
    can carry: setting [__class__] or [__dict__] raises [TypeError], setting
    [__weakref__] raises [AttributeError], and nothing is written. *)
Definition refused (k : string) : option exn :=
  if String.eqb k "__class__" || String.eqb k "__dict__" then Some TypeError
  else if String.eqb k "__weakref__" then Some AttributeError
  else None.

(** [d[k] = v] *)
Definition setitem (d : dictname) (k : string) (v : pyval) : M unit := fun s =>
  match refused k with
  | Some e => (Raise e, s)
  | None => (Ok tt, upd d <[k := v]> s)
  end.

(** [(a, b) = l] *)
Definition unpack2 (l : list string) : result (string * string) :=
  match l with
  | [a; b] => Ok (a, b)
  | _ => Raise ValueError
  end.

Section Override.

Variable B : Builtins.

(** ['True'] and ['False'] become booleans, what [float()] accepts becomes a
    float, anything else stays a string. *)
Definition convert (val : string) : pyval :=
  if String.eqb val "True" then VBool true
  else if String.eqb val "False" then VBool false
  else match float_of_str B val with
       | Some f => VFloat f
       | None => VStr val
       end.

(** The [if farg.startswith(name): ...] statement for one dictionary. *)
Definition update (d : dictname) (name farg arg : string) (val : pyval) : M unit :=
  if PyStr.startswith name farg then
    if PyStr.contains "*=" farg then
      old ← getitem d arg;
      new ← lift (PyNum.py_mul old val);
      setitem d arg new
    else setitem d arg val
  else mret tt.

(** The body of the [try] block for one command-line token. *)
Definition try_body (farg : string) : M unit :=
  '(dicitem, val) ← lift (unpack2 (PyStr.split "=" farg));
  '(dic, arg) ← lift (unpack2 (PyStr.split "." dicitem));
  '(dicitem, val, dic, arg) ←
    (if PyStr.contains "*=" farg then
       '(dicitem, val) ← lift (unpack2 (PyStr.split "*=" farg));
       '(dic, arg) ← lift (unpack2 (PyStr.split "." dicitem));
       mret (dicitem, val, dic, arg)
     else mret (dicitem, val, dic, arg));
  let val := convert val in
  update DP "dp" farg arg val;;
  update MD "md" farg arg val.

(** [try: ... except: pass] *)
Definition override_token (farg : string) (s : dicts) : dicts :=
  snd (try_body farg s).

(** [for farg in sys.argv[1:]: ...] *)
Definition override_args (args : list string) (s : dicts) : dicts :=
  foldl (fun s farg => override_token farg s) s args.

End Override.

(** The pure part of [try_body]: the key and the value text of a token, or
    the exception of the first unpacking that fails. *)
Definition parse_token (farg : string) : result (string * string) :=
  match unpack2 (PyStr.split "=" farg) with
  | Raise e => Raise e
  | Ok (dicitem, val) =>
      match unpack2 (PyStr.split "." dicitem) with
      | Raise e => Raise e
      | Ok (dic, arg) =>
          if PyStr.contains "*=" farg then
            match unpack2 (PyStr.split "*=" farg) with
            | Raise e => Raise e
            | Ok (dicitem', val') =>
                match unpack2 (PyStr.split "." dicitem') with
                | Raise e => Raise e
                | Ok (dic', arg') => Ok (arg', val')
                end
            end
          else Ok (arg, val)
      end
  end.

(** The text of a token [dic.key=value] or [dic.key*=value]. *)
Definition token (dic key op value : string) : string :=
  dic +:+ "." +:+ key +:+ op +:+ value.

(** The script's name of a dictionary. *)
Definition name_of (d : dictname) : string :=
  match d with DP => "dp" | MD => "md" end.

(** ** The two scripts and their default dictionaries *)

Inductive script : Type := Isotropic | TiModel.

Module Defaults.

Local Open Scope float_scope.

(** [isotropic.py]: [dp = edict({})] followed by one assignment per entry *)
Definition dp_isotropic : gmap string pyval :=
  let depth := 30 * 1e3 in
  <["lam" := VFloat 1e16]> (
  <["notchWidth" := VFloat (depth / 16)]> (
  <["a" := VFloat 1]> (
  <["fa" := VFloat 30]> (
  <["cohesion" := VFloat 100e6]> (
  <["g" := VFloat 9.81]> (
  <["rho" := VFloat 2700]> (
  <["U0" := VFloat (0.0025 / 31536000)]> (
  <["etaMin" := VFloat 1e18]> (
  <["eta2" := VFloat 1e20]> (
  <["eta1" := VFloat 1e24]> (
  <["asthenosphere" := VFloat (depth / 4)]> (
  <["depth" := VFloat depth]> ∅)))))))))))).

Definition md_isotropic : gmap string pyval :=
  <["pertSig" := VFloat 1]> (
  <["perturb" := VInt 1]> (
  <["maxIts" := VInt 50]> (
  <["comp" := VBool false]> (
  <["pen" := VFloat 1e7]> (
  <["tol" := VFloat 1e-10]> (
  <["ppc" := VInt 25]> (
  <["res" := VInt 32]> (
  <["aspectRatio" := VFloat 4]> (
  <["stickyAir" := VBool false]> (
  <["refineMesh" := VBool false]> ∅)))))))))).

(** [ti_model.py]: a dictionary literal, then [dp.notchWidth = dp.LS/16.] *)
Definition dp_ti_model : gmap string pyval :=
  let LS := 30 * 1e3 in
  <["notchWidth" := VFloat (LS / 16)]> (
  list_to_map [
    ("LS", VFloat LS);
    ("asthenosphere", VFloat ((30 * 1e3) / 4));
    ("eta0", VFloat 1e21);
    ("eta1", VFloat 1e23);
    ("eta2", VFloat 1e20);
    ("etaMin", VFloat 1e18);
    ("U0", VFloat (0.0125 / 31536000));
    ("rho", VFloat 2700);
    ("g", VFloat 9.81);
    ("cohesion", VFloat 100e6);
    ("fa", VFloat 15);
    ("a", VFloat 1) ]).

Definition md_ti_model : gmap string pyval :=
  list_to_map [
    ("refineMesh", VBool false);
    ("stickyAir", VBool false);
    ("aspectRatio", VFloat 4);
    ("res", VInt 48);
    ("ppc", VInt 35);
    ("tol", VFloat 1e-7);
    ("maxIts", VInt 50);
    ("directorPhi", VFloat 45);
    ("directorV", VFloat 1e-5);
    ("directorSigma", VFloat 1e-5) ].

End Defaults.

Definition defaults (sc : script) : dicts :=
  match sc with
  | Isotropic => {| dp := Defaults.dp_isotropic; md := Defaults.md_isotropic |}
  | TiModel => {| dp := Defaults.dp_ti_model; md := Defaults.md_ti_model |}
  end.

(** ** Model letter and model number *)

Section ModelName.

Variable B : Builtins.

(** One round of [for farg in sys.argv[1:]] in the model-name block. *)
Definition model_step (st : string * Z) (farg : string) : string * Z :=
  let '(Model, ModNum) := st in
  if negb (PyStr.contains "=" farg) then
    match int_of_str B farg with
    | Some n => (Model, n)
    | None => (farg, ModNum)
    end
  else (Model, ModNum).

(** [Model] and [ModNum] from [sys.argv[1:]]. *)
Definition model_name (args : list string) : string * Z :=
  let Model := "T" in
  let ModNum := 0 in
  match args with
  | [] => (Model, ModNum)
  | a1 :: _ =>
      if String.eqb a1 "-f" then (Model, ModNum)
      else foldl model_step (Model, ModNum) args
  end.

(** The arguments the block looks at. *)
Definition positional (args : list string) : list string :=
  List.filter (fun farg => negb (PyStr.contains "=" farg)) args.

Definition is_int (farg : string) : bool :=
  match int_of_str B farg with Some _ => true | None => false end.

End ModelName.

(** [str(n)] for an int *)
Definition str_of_Z (n : Z) : string :=
  DecimalString.NilZero.string_of_int (Z.to_int n).

(** [outputPath] *)
Definition outputPath (Model : string) (ModNum : Z) : string :=
  "results" +:+ "/" +:+ Model +:+ "/" +:+ str_of_Z ModNum +:+ "/".

(** ** Scale factors and non-dimensional parameters *)

Section NonDim.

Variable B : Builtins.
Variable L : MathLib.

Import PyOps.

Local Abbreviation mul := PyNum.py_mul.
Local Abbreviation div := (py_div B).
Local Abbreviation pow := (py_pow L).

(** [isotropic.py], cell In[7] *)
Definition nondim_isotropic (dp : gmap string pyval)
    : result (gmap string pyval * gmap string pyval) :=
  let sf : gmap string pyval := ∅ in
  let LS := VFloat (30 * 1e3)%float in
  let sf := <["LS" := LS]> sf in
  let eta0 := VFloat 1e22%float in
  let sf := <["eta0" := eta0]> sf in
  stress ← (U0 ← attr dp "U0"; x ← mul eta0 U0; div x LS);
  let sf := <["stress" := stress]> sf in
  vel ← attr dp "U0";
  let sf := <["vel" := vel]> sf in
  density ← pow LS 3;
  let sf := <["density" := density]> sf in
  g ← attr dp "g";
  let sf := <["g" := g]> sf in
  rho ← (U0 ← attr dp "U0"; x ← mul eta0 U0; LS2 ← pow LS 2;
         g' ← attr dp "g"; y ← mul LS2 g'; div x y);
  let sf := <["rho" := rho]> sf in
  let ndp : gmap string pyval := ∅ in
  v ← (x ← attr dp "depth"; div x LS);
  let ndp := <["depth" := v]> ndp in
  v ← (x ← attr dp "U0"; div x vel);
  let ndp := <["U0" := v]> ndp in
  v ← (x ← attr dp "asthenosphere"; div x LS);
  let ndp := <["asthenosphere" := v]> ndp in
  v ← (x ← attr dp "eta1"; div x eta0);
  let ndp := <["eta1" := v]> ndp in
  v ← (x ← attr dp "eta2"; div x eta0);
  let ndp := <["eta2" := v]> ndp in
  v ← (x ← attr dp "etaMin"; div x eta0);
  let ndp := <["etaMin" := v]> ndp in
  v ← (x ← attr dp "cohesion"; q ← div x stress;
       fa ← attr dp "fa"; r ← np_radians L fa; c ← np_cos L r; mul q c);
  let ndp := <["cohesion" := v]> ndp in
  v ← (fa ← attr dp "fa"; r ← np_radians L fa; math_sin L r);
  let ndp := <["fa" := v]> ndp in
  v ← (x ← attr dp "g"; div x g);
  let ndp := <["g" := v]> ndp in
  v ← (x ← attr dp "rho"; div x rho);
  let ndp := <["rho" := v]> ndp in
  v ← (x ← attr dp "notchWidth"; div x LS);
  let ndp := <["notchWidth" := v]> ndp in
  v ← attr dp "a";
  let ndp := <["a" := v]> ndp in
  v ← (x ← attr dp "lam"; div x eta0);
  let ndp := <["lam" := v]> ndp in
  Ok (sf, ndp).

(** [ti_model.py], cells In[178] and In[179]: two dictionary literals, the
    entries evaluated in the order they are written *)
Definition nondim_ti_model (dp : gmap string pyval)
    : result (gmap string pyval * gmap string pyval) :=
  _ ← (LS ← attr dp "LS"; pow LS 3);
  stress ← (eta0 ← attr dp "eta0"; U0 ← attr dp "U0"; x ← mul eta0 U0;
            LS ← attr dp "LS"; div x LS);
  vel ← attr dp "U0";
  density ← (LS ← attr dp "LS"; pow LS 3);
  g ← attr dp "g";
  rho ← (eta0 ← attr dp "eta0"; U0 ← attr dp "U0"; x ← mul eta0 U0;
         LS ← attr dp "LS"; LS2 ← pow LS 2; g' ← attr dp "g";
         y ← mul LS2 g'; div x y);
  let sf : gmap string pyval :=
    list_to_map [("stress", stress); ("vel", vel); ("density", density);
                 ("g", g); ("rho", rho)] in
  U ← (x ← attr dp "U0"; s ← attr sf "vel"; div x s);
  asthenosphere ← (x ← attr dp "asthenosphere"; s ← attr dp "LS"; div x s);
  eta1 ← (x ← attr dp "eta1"; s ← attr dp "eta0"; div x s);
  eta2 ← (x ← attr dp "eta2"; s ← attr dp "eta0"; div x s);
  etaMin ← (x ← attr dp "etaMin"; s ← attr dp "eta0"; div x s);
  cohesion ← (x ← attr dp "cohesion"; s ← attr sf "stress"; div x s);
  fa ← (x ← attr dp "fa";
        a ← mul (VFloat (math_pi / 180)%float) x; math_tan L a);
  g_nd ← (x ← attr dp "g"; s ← attr sf "g"; div x s);
  rho_nd ← (x ← attr dp "rho"; s ← attr sf "rho"; div x s);
  notchWidth ← (x ← attr dp "notchWidth"; s ← attr dp "LS"; div x s);
  a ← attr dp "a";
  let ndp : gmap string pyval :=
    list_to_map [("U", U); ("asthenosphere", asthenosphere); ("eta1", eta1);
                 ("eta2", eta2); ("etaMin", etaMin); ("cohesion", cohesion);
                 ("fa", fa); ("g", g_nd); ("rho", rho_nd);
                 ("notchWidth", notchWidth); ("a", a)] in
  Ok (sf, ndp).

Definition nondim (sc : script) (dp : gmap string pyval)
    : result (gmap string pyval * gmap string pyval) :=
  match sc with
  | Isotropic => nondim_isotropic dp
  | TiModel => nondim_ti_model dp
  end.

End NonDim.

(** Where the divisor of a non-dimensional entry is kept: in [sf], or (in
    [ti_model.py], for the length and viscosity scales) in [dp] itself. *)
Inductive scale : Type := Sf (k : string) | Dp (k : string).

Definition scale_of (sf dp : gmap string pyval) (sc : scale) : option pyval :=
  match sc with
  | Sf k => sf !! k
  | Dp k => dp !! k
  end.

(** The entries of [ndp] that are plain quotients, with their divisors. *)
Definition scales (sc : script) : list (string * scale) :=
  match sc with
  | Isotropic =>
      [("depth", Sf "LS"); ("U0", Sf "vel"); ("asthenosphere", Sf "LS");
       ("eta1", Sf "eta0"); ("eta2", Sf "eta0"); ("etaMin", Sf "eta0");
       ("g", Sf "g"); ("rho", Sf "rho"); ("notchWidth", Sf "LS");
       ("lam", Sf "eta0")]
  | TiModel =>
      [("asthenosphere", Dp "LS"); ("eta1", Dp "eta0"); ("eta2", Dp "eta0");
       ("etaMin", Dp "eta0"); ("cohesion", Sf "stress"); ("g", Sf "g");
       ("rho", Sf "rho"); ("notchWidth", Dp "LS")]
  end.

(** [y = x / s], all three present *)
Definition quotient_of (B : Builtins) (x s y : option pyval) : Prop :=
  exists xv sv yv,
    x = Some xv /\ s = Some sv /\ y = Some yv /\ PyOps.py_div B xv sv = Ok yv.

(** The friction coefficient computed from the friction angle. *)
Definition friction (L : MathLib) (sc : script) (fa : pyval) : result pyval :=
  match sc with
  | Isotropic => r ← np_radians L fa; math_sin L r
  | TiModel =>
      a ← PyNum.py_mul (VFloat (PyOps.math_pi / 180)%float) fa; math_tan L a
  end.

(** ** The manual Picard iteration *)

(** The arithmetic of the loop: binary64 in the scripts. *)
Record Arith (F : Type) : Type := {
  fzero : F;
  fone : F;
  fadd : F -> F -> F;
  fsub : F -> F -> F;
  fmul : F -> F -> F;
  fdiv : F -> F -> F;
  fsqrt : F -> F;
  fabs : F -> F;
  fis_zero : F -> bool
}.
Arguments fzero {F} _.
Arguments fone {F} _.
Arguments fadd {F} _ _ _.
Arguments fsub {F} _ _ _.
Arguments fmul {F} _ _ _.
Arguments fdiv {F} _ _ _.
Arguments fsqrt {F} _ _.
Arguments fabs {F} _ _.
Arguments fis_zero {F} _ _.

(** What the Underworld library provides once mesh, swarm, rheology and
    solver are set up.  Quadrature points are numbered; a rule lists points
    with their weights. *)
Record Sim (F : Type) : Type := {
  (** [velocityField.data] and [pressureField.data] before the loop *)
  velocity0 : list (F * F);
  pressure0 : list F;
  (** [solver.solve(nonLinearIterate=False)]: new velocity and pressure data
      from the current ones *)
  solve : list (F * F) -> list F -> list (F * F) * list F;
  (** a mesh variable evaluated at a quadrature point *)
  velocity_at : list (F * F) -> nat -> F * F;
  pressure_at : list F -> nat -> F;
  (** the rules of [Integral(fn, mesh)] and of the surface integral over the
      top wall *)
  volume : list (nat * F);
  top : list (nat * F)
}.
Arguments velocity0 {F} _.
Arguments pressure0 {F} _.
Arguments solve {F} _ _ _.
Arguments velocity_at {F} _ _ _.
Arguments pressure_at {F} _ _ _.
Arguments volume {F} _.
Arguments top {F} _.

Section Picard.

Context {F : Type}.
Variable A : Arith F.
Variable sim : Sim F.
(** [res1 < md.tol] *)
Variable below_tol : F -> result bool.

Record MeshVariables : Type := {
  velocityField : list (F * F);
  pressureField : list F;
  prevVelocityField : list (F * F);
  prevPressureField : list F
}.

(** Underworld function objects: evaluated, when an integral is evaluated,
    on the data the mesh variables hold at that moment. *)
Definition Fn (T : Type) : Type := MeshVariables -> nat -> T.

Definition fn_velocity : Fn (F * F) := fun mv x => velocity_at sim (velocityField mv) x.
Definition fn_prevVelocity : Fn (F * F) := fun mv x => velocity_at sim (prevVelocityField mv) x.
Definition fn_pressure : Fn F := fun mv x => pressure_at sim (pressureField mv) x.
Definition fn_prevPressure : Fn F := fun mv x => pressure_at sim (prevPressureField mv) x.
Definition fn_const (c : F) : Fn F := fun _ _ => c.

Definition fn_sub2 (a b : Fn (F * F)) : Fn (F * F) := fun mv x =>
  (fsub A (a mv x).1 (b mv x).1, fsub A (a mv x).2 (b mv x).2).
Definition fn_sub (a b : Fn F) : Fn F := fun mv x => fsub A (a mv x) (b mv x).
Definition fn_add (a b : Fn F) : Fn F := fun mv x => fadd A (a mv x) (b mv x).
Definition fn_mul (a b : Fn F) : Fn F := fun mv x => fmul A (a mv x) (b mv x).
(** [fn.math.dot] on vectors and on scalars *)
Definition fn_dot2 (a b : Fn (F * F)) : Fn F := fun mv x =>
  fadd A (fmul A (a mv x).1 (b mv x).1) (fmul A (a mv x).2 (b mv x).2).
Definition fn_dot (a b : Fn F) : Fn F := fn_mul a b.

(** [Integral(fn, ...).evaluate()] *)
Definition evaluate (rule : list (nat * F)) (fn : Fn F) (mv : MeshVariables) : F :=
  foldr (fun q acc => fadd A (fmul A q.2 (fn mv q.1)) acc) (fzero A) rule.

(** [volumeint(Fn)], with [rFn] left at its default [1.] *)
Definition volumeint (fn : Fn F) : MeshVariables -> F :=
  evaluate (volume sim) (fn_mul fn (fn_const (fone A))).

(** [surfaceArea] and [surfacePressureIntegral] *)
Definition surfaceArea : MeshVariables -> F := evaluate (top sim) (fn_const (fone A)).
Definition surfacePressureIntegral : MeshVariables -> F := evaluate (top sim) fn_pressure.

(** The state of the loop.  [solves] is a ghost counter of the calls the loop
    makes of the linear solver; it goes up in [solver_solve] only. *)
Record LoopState : Type := {
  vars : MeshVariables;
  count : nat;
  res1Vals : list F;
  res2Vals : list F;
  res3Vals : list F;
  solves : nat
}.

(** The mesh variables and histories as the loop finds them. *)
Definition initial : LoopState := {|
  vars := {| velocityField := velocity0 sim;
             pressureField := pressure0 sim;
             prevVelocityField := map (fun _ => (fzero A, fzero A)) (velocity0 sim);
             prevPressureField := map (fun _ => fzero A) (pressure0 sim) |};
  count := 0;
  res1Vals := [];
  res2Vals := [];
  res3Vals := [];
  solves := 0
|}.

(** [solver.solve(nonLinearIterate=False)] on the current fields.  [calls]
    counts the calls of the linear solver: this is the one place where it
    goes up. *)
Definition solver_solve (v : list (F * F)) (p : list F) (calls : nat)
    : list (F * F) * list F * nat :=
  (solve sim v p, S calls).

(** The snapshot, the linear solve and the removal of the pressure drift,
    with the calls of the solver counted. *)
Definition solve_and_detrend_counting (area : F) (mv : MeshVariables) (calls : nat)
    : result (MeshVariables * nat) :=
  let prevV := velocityField mv in
  let prevP := pressureField mv in
  let '(v, p, calls) := solver_solve (velocityField mv) (pressureField mv) calls in
  let mv := {| velocityField := v; pressureField := p;
               prevVelocityField := prevV; prevPressureField := prevP |} in
  let p0 := surfacePressureIntegral mv in
  if fis_zero A area then Raise ZeroDivisionError
  else
    let drift := fdiv A p0 area in
    Ok ({| velocityField := v;
           pressureField := map (fun x => fsub A x drift) p;
           prevVelocityField := prevV; prevPressureField := prevP |}, calls).

(** The same, for the fields alone. *)
Definition solve_and_detrend (area : F) (mv : MeshVariables) : result MeshVariables :=
  '(mv, _) ← solve_and_detrend_counting area mv 0;
  Ok mv.

(** The three residuals of one round, on the detrended fields. *)
Definition residuals (sc : script) (mv : MeshVariables) : F * F * F :=
  let velL2 := fsqrt A (volumeint (fn_dot2 fn_velocity fn_velocity) mv) in
  let delV := fn_sub2 fn_velocity fn_prevVelocity in
  let delvelL2 := fsqrt A (volumeint (fn_dot2 delV delV) mv) in
  let pL2 := fsqrt A (volumeint (fn_dot fn_pressure fn_pressure) mv) in
  let delP :=
    match sc with
    | Isotropic => fn_sub fn_pressure fn_prevPressure
    | TiModel => fn_sub fn_pressure fn_pressure
    end in
  let delpL2 := fsqrt A (volumeint (fn_dot delP delP) mv) in
  let xL2 := fsqrt A (volumeint (fn_add (fn_dot2 fn_velocity fn_velocity)
                                         (fn_dot fn_pressure fn_pressure)) mv) in
  let delV := fn_sub2 fn_velocity fn_prevVelocity in
  let delP := fn_sub fn_pressure fn_prevPressure in
  let delxL2 := fsqrt A (volumeint (fn_add (fn_dot2 delV delV) (fn_dot delP delP)) mv) in
  let res1 := fabs A (fdiv A delvelL2 velL2) in
  let res2 := fabs A (fdiv A delpL2 pL2) in
  let res3 := fabs A (fdiv A delxL2 xL2) in
  (res1, res2, res3).

(** The relative norm the residuals are instances of: the root of the
    integral of [num] over the root of the integral of [den]. *)
Definition relative_norm (num den : Fn F) (mv : MeshVariables) : F :=
  fabs A (fdiv A (fsqrt A (volumeint num mv)) (fsqrt A (volumeint den mv))).

(** What one round leaves behind when the detrended fields are [mv]: one
    more round, one more call of the solver. *)
Definition after (sc : script) (st : LoopState) (mv : MeshVariables) : LoopState :=
  {| vars := mv;
     count := S (count st);
     res1Vals := res1Vals st ++ [(residuals sc mv).1.1];
     res2Vals := res2Vals st ++ [(residuals sc mv).1.2];
     res3Vals := res3Vals st ++ [(residuals sc mv).2];
     solves := S (solves st) |}.

(** The loop body up to the stopping test; also returns [res1]. *)
Definition iteration (sc : script) (area : F) (st : LoopState) : result (LoopState * F) :=
  '(mv, calls) ← solve_and_detrend_counting area (vars st) (solves st);
  let '(res1, res2, res3) := residuals sc mv in
  Ok ({| vars := mv;
         count := S (count st);
         res1Vals := res1Vals st ++ [res1];
         res2Vals := res2Vals st ++ [res2];
         res3Vals := res3Vals st ++ [res3];
         solves := calls |}, res1).

(** [for i in range(n): ...; if res1 < md.tol: break] *)
Fixpoint picard (sc : script) (area : F) (n : nat) (st : LoopState) : result LoopState :=
  match n with
  | O => Ok st
  | S k =>
      '(st', res1) ← iteration sc area st;
      stop ← below_tol res1;
      if stop : bool then Ok st' else picard sc area k st'
  end.

(** [k] rounds without the stopping test. *)
Fixpoint rounds (sc : script) (area : F) (k : nat) (st : LoopState) : result LoopState :=
  match k with
  | O => Ok st
  | S k' => '(st', _) ← iteration sc area st; rounds sc area k' st'
  end.

(** The residuals of [k] successive rounds, in the order they are computed. *)
Fixpoint history (sc : script) (area : F) (k : nat) (st : LoopState) : list (F * F * F) :=
  match k with
  | O => []
  | S k' =>
      match iteration sc area st with
      | Ok (st', _) => residuals sc (vars st') :: history sc area k' st'
      | Raise _ => []
      end
  end.

End Picard.

Arguments MeshVariables : clear implicits.
Arguments LoopState : clear implicits.
Arguments velocityField {F} _.
Arguments pressureField {F} _.
Arguments prevVelocityField {F} _.
Arguments prevPressureField {F} _.
Arguments vars {F} _.
Arguments count {F} _.
Arguments res1Vals {F} _.
Arguments res2Vals {F} _.
Arguments res3Vals {F} _.
Arguments solves {F} _.

(** Binary64 arithmetic: numpy's on the norms, and Python's [==] on the
    divisor of the drift. *)
Definition binary64 : Arith float := {|
  fzero := 0%float;
  fone := 1%float;
  fadd := PrimFloat.add;
  fsub := PrimFloat.sub;
  fmul := PrimFloat.mul;
  fdiv := PrimFloat.div;
  fsqrt := PrimFloat.sqrt;
  fabs := PrimFloat.abs;
  fis_zero := fun x => PrimFloat.eqb x 0%float
|}.

(** Exact rational arithmetic.  The scripts never compute in it: it serves
    to say what a formula gives when nothing is rounded.  The square root is
    whatever function is supplied. *)
Definition rational (sq : Q -> Q) : Arith Q := {|
  fzero := 0%Q;
  fone := 1%Q;
  fadd := Qplus;
  fsub := Qminus;
  fmul := Qmult;
  fdiv := Qdiv;
  fsqrt := sq;
  fabs := Qabs;
  fis_zero := fun x => Qeq_bool x 0
|}.

(** ** The scripts from the command line to the CSV files *)

Module PyCmp.

(** [r < z] for a float and an int, compared exactly *)
Definition lt_float_Z (r : float) (z : Z) : bool :=
  match Prim2SF r with
  | S754_zero _ => 0 <? z
  | S754_finite s m e =>
      let v := if s then Z.neg m else Z.pos m in
      if e <? 0 then v <? z * 2 ^ (- e) else v * 2 ^ e <? z
  | S754_infinity s => s
  | S754_nan => false
  end.

(** [r < v] *)
Definition lt_float (B : Builtins) (r : float) (v : pyval) : result bool :=
  match v with
  | VFloat t => Ok (PrimFloat.ltb r t)
  | VInt z => Ok (lt_float_Z r z)
  | VBool b => Ok (lt_float_Z r (PyNum.Z_of_bool b))
  | VStr s => lt_float_str B r s
  end.

(** [int(v)] *)
Definition py_int (B : Builtins) (v : pyval) : result Z :=
  match v with
  | VFloat f => PyNum.int_of_float f
  | VInt z => Ok z
  | VBool b => Ok (PyNum.Z_of_bool b)
  | VStr s =>
      match int_of_str B s with
      | Some z => Ok z
      | None => Raise ValueError
      end
  end.

End PyCmp.

(** ** Paths *)

Module Path.

(** The names a relative path walks through, read as [os.path.normpath]
    reads it: empty names and [.] are skipped, and [..] steps back over the
    name before it.  Links and the case of letters are left aside.  The list
    [walked] holds the names so far, the latest first. *)
Definition step (walked : list string) (name : string) : list string :=
  if String.eqb name "" || String.eqb name "." then walked
  else if String.eqb name ".." then
    match walked with
    | [] => [name]
    | latest :: rest => if String.eqb latest ".." then name :: walked else rest
    end
  else name :: walked.

Definition components (path : string) : list string :=
  rev (foldl step [] (PyStr.split "/" path)).

(** A name that is one step of a path. *)
Definition plain_name (name : string) : bool :=
  negb (String.eqb name "") && negb (String.eqb name ".")
  && negb (String.eqb name "..") && negb (PyStr.has_char "/" name).

End Path.

(** Files as the rows written to them.  A file is looked up by the text of
    the path it was opened with: two texts that reach one file are not
    identified here, so what is said about a file is said about lookups
    through the text it was written under, or through a path whose
    components differ. *)
Module Csv.

Abbreviation file := (list (list pyval)).

(** [open(path, 'w')] *)
Definition open_w (path : string) (fs : gmap string file) : gmap string file :=
  <[path := []]> fs.

(** [writer.writerow(row)] on the file opened at [path] *)
Definition writerow (path : string) (row : list pyval) (fs : gmap string file)
    : gmap string file :=
  match fs !! path with
  | Some rows => <[path := rows ++ [row]]> fs
  | None => fs
  end.

(** [os.path.join(dir, name)] for a relative [name] *)
Definition join (dir name : string) : string :=
  if String.eqb dir "" then name
  else if PyStr.ends_with_char "/" dir then dir +:+ name
  else dir +:+ "/" +:+ name.

(** [[d[i] for i in sorted(d.keys())]], where [d.keys] is the method *)
Definition sorted_values (d : gmap string pyval) : list pyval :=
  omap (fun k => d !! k) (merge_sort String.le (map_to_list d).*1).

(** [[d[i] for i in sorted(d.keys())]] on an EasyDict: an entry named [keys]
    is an attribute as well, it hides the method, and calling it raises. *)
Definition row (d : gmap string pyval) : result (list pyval) :=
  match d !! "keys" with
  | Some _ => Raise TypeError
  | None => Ok (sorted_values d)
  end.

End Csv.

Section Script.

Variable B : Builtins.
Variable L : MathLib.
(** The cells between the parameter blocks and the loop: from [ndp] and [md]
    to mesh, fields, swarm, rheology and solver. *)
Variable setup : script -> gmap string pyval -> gmap string pyval -> result (Sim float).
(** The cells between the loop and the CSV files: [someVals]. *)
Variable metrics : script -> Sim float -> LoopState float -> result (list pyval).

(** [md.maxIts = 10.] in isotropic.py, [md.maxIts = 4] in ti_model.py *)
Definition maxIts_before_loop (sc : script) : pyval :=
  match sc with
  | Isotropic => VFloat 10
  | TiModel => VInt 4
  end.

(** The budget of the [for] statement the reassignment amounts to. *)
Definition cap (sc : script) : nat :=
  match sc with Isotropic => 10 | TiModel => 4 end.

Definition reassign_maxIts (sc : script) (md : gmap string pyval) : gmap string pyval :=
  <["maxIts" := maxIts_before_loop sc]> md.

(** [range(int(md.maxIts))]: the number of rounds the [for] statement allows. *)
Definition loop_budget (md : gmap string pyval) : result nat :=
  maxIts ← PyOps.attr md "maxIts";
  n ← PyCmp.py_int B maxIts;
  Ok (Z.to_nat n).

(** [res1 < md.tol] *)
Definition below_md_tol (md : gmap string pyval) (res1 : float) : result bool :=
  tol ← PyOps.attr md "tol";
  PyCmp.lt_float B res1 tol.

(** The block that writes [params.csv] in isotropic.py: what it makes of the
    files, and the exception that ends it early, if any.  Rows written before
    the exception stay in the file. *)
Definition write_params (path : string) (d : dicts) (ndp : gmap string pyval)
    (fs : gmap string Csv.file) : result unit * gmap string Csv.file :=
  let fs := Csv.open_w path fs in
  match Csv.row (dp d) with
  | Raise e => (Raise e, fs)
  | Ok r =>
      let fs := Csv.writerow path r fs in
      match Csv.row ndp with
      | Raise e => (Raise e, fs)
      | Ok r =>
          let fs := Csv.writerow path r fs in
          match Csv.row (md d) with
          | Raise e => (Raise e, fs)
          | Ok r => (Ok tt, Csv.writerow path r fs)
          end
      end
  end.

(** The last cell: the CSV files, written by rank 0 only. *)
Definition write_csv (sc : script) (rank : nat) (outputPath : string)
    (someVals : list pyval) (st : LoopState float)
    (d : dicts) (ndp : gmap string pyval)
    (fs : gmap string Csv.file) : result unit * gmap string Csv.file :=
  if (rank =? 0)%nat then
    let path := Csv.join outputPath "metrics.csv" in
    let fs := Csv.open_w path fs in
    let fs := Csv.writerow path someVals fs in
    let path := Csv.join outputPath "solver.csv" in
    let fs := Csv.open_w path fs in
    let fs := Csv.writerow path (VFloat <$> res1Vals st) fs in
    let fs := Csv.writerow path (VFloat <$> res2Vals st) fs in
    let fs := Csv.writerow path (VFloat <$> res3Vals st) fs in
    match sc with
    | TiModel => (Ok tt, fs)
    | Isotropic => write_params (Csv.join outputPath "params.csv") d ndp fs
    end
  else (Ok tt, fs).

Record Outcome : Type := {
  Model : string;
  ModNum : Z;
  params : dicts;
  sim_used : Sim float;
  final : LoopState float;
  files : gmap string Csv.file
}.

(** One run of a script on rank [rank] with arguments [sys.argv[1:] = args]. *)
Definition run (sc : script) (rank : nat) (args : list string)
    (fs : gmap string Csv.file) : result Outcome :=
  let '(Model, ModNum) := model_name B args in
  let d := override_args B args (defaults sc) in
  '(sf, ndp) ← nondim B L sc (dp d);
  sim ← setup sc ndp (md d);
  let d := {| dp := dp d; md := reassign_maxIts sc (md d) |} in
  let st := initial binary64 sim in
  let area := surfaceArea binary64 sim (vars st) in
  n ← loop_budget (md d);
  st ← picard binary64 sim (below_md_tol (md d)) sc area n st;
  someVals ← metrics sc sim st;
  let '(written, fs) := write_csv sc rank (outputPath Model ModNum) someVals st d ndp fs in
  _ ← written;
  Ok {| Model := Model; ModNum := ModNum; params := d; sim_used := sim; final := st;
        files := fs |}.

End Script.

(** ** A reference interpreter for the examples

    [int()] and [float()] on ASCII text: optional surrounding blanks, an
    optional sign, decimal digits and, for [float()], an optional fraction,
    an optional exponent, and the words [inf], [infinity] and [nan].  The
    float is the decimal number rounded to nearest, ties to even. *)

Module Reference.

Definition is_space (c : ascii) : bool :=
  let n := nat_of_ascii c in
  (n =? 32)%nat || ((9 <=? n)%nat && (n <=? 13)%nat).

Definition digit (c : ascii) : option Z :=
  let n := Z.of_nat (nat_of_ascii c) in
  if (48 <=? n) && (n <=? 57) then Some (n - 48) else None.

Definition lower (c : ascii) : ascii :=
  let n := nat_of_ascii c in
  if ((65 <=? n) && (n <=? 90))%nat then ascii_of_nat (n + 32) else c.

Fixpoint lower_str (s : string) : string :=
  match s with
  | String c s' => String (lower c) (lower_str s')
  | EmptyString => EmptyString
  end.

Fixpoint lstrip (s : string) : string :=
  match s with
  | String c s' => if is_space c then lstrip s' else s
  | EmptyString => EmptyString
  end.

Fixpoint rstrip (s : string) : string :=
  match s with
  | String c s' =>
      match rstrip s' with
      | EmptyString => if is_space c then EmptyString else String c EmptyString
      | r => String c r
      end
  | EmptyString => EmptyString
  end.

Definition strip (s : string) : string := rstrip (lstrip s).

(** The leading digits of [s] appended to the number [acc], how many they
    are on top of [n], and the rest of [s]. *)
Fixpoint digits (acc : Z) (n : nat) (s : string) : Z * nat * string :=
  match s with
  | String c s' =>
      match digit c with
      | Some d => digits (10 * acc + d) (S n) s'
      | None => (acc, n, s)
      end
  | EmptyString => (acc, n, s)
  end.

Definition sign (s : string) : bool * string :=
  match s with
  | String "-" s' => (true, s')
  | String "+" s' => (false, s')
  | _ => (false, s)
  end.

Definition int_literal (s : string) : option Z :=
  let '(neg, s1) := sign (strip s) in
  match digits 0 0 s1 with
  | (m, S _, EmptyString) => Some (if neg then - m else m)
  | _ => None
  end.

(** [(-1)^neg * m * 10^e] as a binary64 *)
Definition decimal (neg : bool) (m e : Z) : float :=
  let x :=
    if m =? 0 then S754_zero false
    else if 1025 <? Z.log2 m + (if e <? 0 then 4 else 3) * e then S754_infinity false
    else if Z.log2 m + 1 + 3 * e <? - 1100 then S754_zero false
    else if 0 <=? e then binary_normalize prec emax (m * 10 ^ e) 0 false
    else SFdiv prec emax (S754_finite false (Z.to_pos m) 0)
                         (S754_finite false (Z.to_pos (10 ^ (- e))) 0) in
  let f := SF2Prim x in
  if neg then PrimFloat.opp f else f.

Definition float_literal (s : string) : option float :=
  let '(neg, s1) := sign (strip s) in
  let word := lower_str s1 in
  if String.eqb word "inf" || String.eqb word "infinity" then
    Some (if neg then neg_infinity else infinity)
  else if String.eqb word "nan" then Some nan
  else
    let '(m, n, s2) := digits 0 0 s1 in
    let '(m, k, s3) :=
      match s2 with
      | String "." t => digits m 0 t
      | _ => (m, 0%nat, s2)
      end in
    if ((n + k)%nat =? 0)%nat then None
    else
      match s3 with
      | EmptyString => Some (decimal neg m (- Z.of_nat k))
      | String c t =>
          if Ascii.eqb (lower c) "e" then
            let '(eneg, t1) := sign t in
            match digits 0 0 t1 with
            | (x, S _, EmptyString) =>
                Some (decimal neg m ((if eneg then - x else x) - Z.of_nat k))
            | _ => None
            end
          else None
      end.

(** Python 2: [/] on two ints is floor division, and any number sorts before
    any string. *)
Definition python2 : Builtins := {|
  float_of_str := float_literal;
  int_of_str := int_literal;
  int_div := fun a b => if b =? 0 then Raise ZeroDivisionError else Ok (VInt (a / b));
  lt_float_str := fun _ _ => Ok true
|}.

(** Stand-ins for the C library, for running the examples: truncated
    Maclaurin series for sine and cosine (accurate to a few units in the last
    place on the first quadrant, not correctly rounded), [tan = sin / cos],
    and powers by repeated multiplication, with Python's [OverflowError] when
    a finite base gives an infinite power. *)
Definition of_Z (z : Z) : float := SF2Prim (binary_normalize prec emax z 0 false).

Fixpoint series (n : nat) (k : Z) (term acc x2 : float) : float :=
  match n with
  | O => acc
  | S n' =>
      let term' := (- term * x2 / of_Z ((k + 1) * (k + 2)))%float in
      series n' (k + 2) term' (acc + term')%float x2
  end.

Definition sin (x : float) : float := series 12 1 x x (x * x)%float.
Definition cos (x : float) : float := series 12 0 1%float 1%float (x * x)%float.
Definition tan (x : float) : float := (sin x / cos x)%float.
Definition radians (x : float) : float := (x * (PyOps.math_pi / 180))%float.

Fixpoint pow_nat (x : float) (n : nat) : float :=
  match n with
  | O => 1%float
  | S k => (x * pow_nat x k)%float
  end.

Definition on_float (f : float -> float) (v : pyval) : result pyval :=
  x ← PyOps.as_float v; Ok (VFloat (f x)).

Definition libm : MathLib := {|
  np_radians := on_float radians;
  np_cos := on_float cos;
  math_sin := on_float sin;
  math_tan := on_float tan;
  float_pow := fun x n =>
    let y := pow_nat x (Z.to_nat n) in
    if PrimFloat.is_infinity y && negb (PrimFloat.is_infinity x)
    then Raise OverflowError else Ok y
|}.

(** A two-node mesh for running the loop: nodal values, two-point rules, and a
    solver that returns the same fields whatever it is given. *)
Definition toy : Sim float := {|
  velocity0 := [(1, 0); (-1, 0)]%float;
  pressure0 := [0; 0]%float;
  solve := fun _ _ => ([(1, 0.5); (-1, 0.5)]%float, [3; 1]%float);
  velocity_at := fun v x => nth x v (0, 0)%float;
  pressure_at := fun p x => nth x p 0%float;
  volume := [(0%nat, 0.5); (1%nat, 0.5)]%float;
  top := [(0%nat, 1); (1%nat, 1)]%float
|}.

(** A mesh whose top wall has three points of weight one, with nodal values;
    the solver returns the pressures 0.1, 0.2 and 0.4. *)
Definition wall3 : Sim float := {|
  velocity0 := [(0, 0); (0, 0); (0, 0)]%float;
  pressure0 := [0; 0; 0]%float;
  solve := fun _ _ => ([(1, 0); (0, 0); (-1, 0)]%float, [0.1; 0.2; 0.4]%float);
  velocity_at := fun v x => nth x v (0, 0)%float;
  pressure_at := fun p x => nth x p 0%float;
  volume := [(0%nat, 1); (1%nat, 1); (2%nat, 1)]%float;
  top := [(0%nat, 1); (1%nat, 1); (2%nat, 1)]%float
|}.

End Reference.

(** ** Switches and the mesh *)

(** [if v:] *)
Definition truthy (v : pyval) : bool :=
  match v with
  | VBool b => b
  | VInt z => negb (z =? 0)
  | VFloat f => negb (PrimFloat.eqb f 0%float)
  | VStr s => negb (String.eqb s "")
  end.

(** The arguments of [FeMesh_Cartesian] that the scripts compute. *)
Record MeshBox : Type := {
  minX : pyval;
  maxX : pyval;
  maxY : pyval;
  resX : Z;
  resY : Z
}.

Section Mesh.

Variable B : Builtins.

Definition mesh_box (sc : script) (ndp md : gmap string pyval) : result MeshBox :=
  '(minX, maxX, maxY) ←
    match sc with
    | Isotropic =>
        aspectRatio ← PyOps.attr md "aspectRatio";
        minX ← PyNum.py_mul (VFloat (-0.5)%float) aspectRatio;
        aspectRatio ← PyOps.attr md "aspectRatio";
        maxX ← PyNum.py_mul (VFloat 0.5%float) aspectRatio;
        maxY ← PyOps.attr ndp "depth";
        Ok (minX, maxX, maxY)
    | TiModel => Ok (VFloat (-2.0)%float, VFloat 2.0%float, VFloat 1.0%float)
    end;
  stickyAir ← PyOps.attr md "stickyAir";
  let maxY := if truthy stickyAir then VFloat 1.1%float else maxY in
  res ← PyOps.attr md "res";
  resY ← PyCmp.py_int B res;
  aspectRatio ← PyOps.attr md "aspectRatio";
  prod ← PyNum.py_mul (VInt resY) aspectRatio;
  resX ← PyCmp.py_int B prod;
  Ok {| minX := minX; maxX := maxX; maxY := maxY; resX := resX; resY := resY |}.

End Mesh.

(** ** Nearest neighbours on a swarm ([nn_evaluation], ti_model.py) *)

(** numpy arrays of one and of two dimensions *)
Inductive ndarray (A : Type) : Type :=
  | Arr1 (v : list A)
  | Arr2 (rows : list (list A)).
Arguments Arr1 {A} v.
Arguments Arr2 {A} rows.

(** A swarm: its particles, and its [tree] attribute once that is set. *)
Record Swarm (F T : Type) : Type := {
  particleCoordinates : list (F * F);
  tree : option T
}.
Arguments particleCoordinates {F T} _.
Arguments tree {F T} _.

Section NearestNeighbour.

Context {F T : Type}.
Variable A : Arith F.
(** [float(n)] *)
Variable float_of_nat : nat -> F.
(** [cKDTree(data)] and [tree.query(points, n)]: distances and indices *)
Variable kdTree : list (F * F) -> T.
Variable query : T -> list (F * F) -> nat -> result (ndarray F * ndarray nat).

(** [row.sum()], in the order numpy adds the entries of a row *)
Variable row_sum : list F -> F.

(** [(1./d[:])/(1./d[:]).sum(axis=1)[:,None]]; on one dimension there is no
    axis 1. *)
Definition inverse_distance (d : ndarray F) : result (ndarray F) :=
  match d with
  | Arr1 _ => Raise ValueError
  | Arr2 rows =>
      Ok (Arr2 (map (fun row =>
                       let inv := map (fun x => fdiv A (fone A) x) row in
                       map (fun x => fdiv A x (row_sum inv)) inv) rows))
  end.

(** The indices and the weights, and the swarm as the call leaves it. *)
Definition nn_evaluation (fromSwarm : Swarm F T) (toSwarm : list (F * F))
    (n : nat) (weighted : bool)
    : result (ndarray nat * ndarray F) * Swarm F T :=
  if (0 <? length toSwarm)%nat then
    let t :=
      match tree fromSwarm with
      | Some t => t
      | None => kdTree (particleCoordinates fromSwarm)
      end in
    let fromSwarm :=
      {| particleCoordinates := particleCoordinates fromSwarm; tree := Some t |} in
    match query t toSwarm n with
    | Raise e => (Raise e, fromSwarm)
    | Ok (d, ix) =>
        let weights :=
          if (n =? 1)%nat then Ok (Arr1 (replicate (length toSwarm) (fone A)))
          else if negb weighted then
            if (n =? 0)%nat then Raise ZeroDivisionError
            else Ok (Arr2 (replicate (length toSwarm)
                             (replicate n (fmul A (fone A)
                                             (fdiv A (fone A) (float_of_nat n))))))
          else inverse_distance d in
        (w ← weights; Ok (ix, w), fromSwarm)
    end
  else (Ok (Arr1 [], Arr1 []), fromSwarm).

End NearestNeighbour.

(** ** The points kept for the shear-band angle *)

Section ShearBand.

(** [strainRate_2ndInvariantFn] at a point *)
Variable strainRate_2ndInvariantFn : float * float -> float.
(** [swarm.update_particle_owners()] on the coordinates of a swarm with
    [particleEscape=True] *)
Variable update_particle_owners : list (float * float) -> list (float * float).

(** [data[mask] = (1e20, 1e20)] *)
Definition move_out (mask : float * float -> bool) (data : list (float * float))
    : list (float * float) :=
  map (fun p => if mask p then (1e20, 1e20)%float else p) data.

Definition low_strain_rate (eII_sig : float) (p : float * float) : bool :=
  PrimFloat.ltb (strainRate_2ndInvariantFn p) eII_sig.

Definition outside_layer (sc : script) (asthenosphere notchWidth minX : float)
    (p : float * float) : bool :=
  let '(x, y) := p in
  match sc with
  | Isotropic =>
      PrimFloat.ltb y (asthenosphere + notchWidth)%float
      || PrimFloat.ltb (1 - notchWidth)%float y
      || PrimFloat.ltb x (minX / 1.5)%float
  | TiModel =>
      PrimFloat.ltb y (asthenosphere + notchWidth)%float
      || PrimFloat.ltb (1 - notchWidth)%float y
  end.

Definition right_of_notch (notchWidth : float) (p : float * float) : bool :=
  PrimFloat.ltb (-2 * notchWidth)%float p.1.

(** The three passes over [shearbandswarm]. *)
Definition shear_band_points (sc : script)
    (eII_sig asthenosphere notchWidth minX : float)
    (data : list (float * float)) : list (float * float) :=
  let data := update_particle_owners (move_out (low_strain_rate eII_sig) data) in
  let data := update_particle_owners
                (move_out (outside_layer sc asthenosphere notchWidth minX) data) in
  update_particle_owners (move_out (right_of_notch notchWidth) data).

(** What a point must satisfy to stay. *)
Definition in_shear_band (sc : script)
    (eII_sig asthenosphere notchWidth minX : float) (p : float * float) : bool :=
  negb (low_strain_rate eII_sig p)
  && negb (outside_layer sc asthenosphere notchWidth minX p)
  && negb (right_of_notch notchWidth p).

End ShearBand.

(** ** Inside and outside the shear band *)

Section Metrics.

(** [strainRate_2ndInvariantFn] at a point *)
Variable strainRate_2ndInvariantFn : float * float -> float.

(** [fn.branching.conditional(conds)]: 1 in the shear band above the notch *)
Definition _2sigRest (eII_sig asthenosphere notchWidth : float)
    (coord : float * float) : float :=
  if PrimFloat.ltb eII_sig (strainRate_2ndInvariantFn coord)
     && PrimFloat.ltb (asthenosphere + notchWidth)%float coord.2
  then 1%float else 0%float.

(** [fn.branching.conditional(conds2)]: 1 outside the shear band above the
    notch *)
Definition _out2sigRest (eII_sig asthenosphere notchWidth : float)
    (coord : float * float) : float :=
  if PrimFloat.ltb (strainRate_2ndInvariantFn coord) eII_sig
     && PrimFloat.ltb (asthenosphere + notchWidth)%float coord.2
  then 1%float else 0%float.

End Metrics.

(** * Properties *)


(** ** Strings *)

Lemma app_nil_str (b : string) : "" +:+ b = b.
Proof. reflexivity. Qed.

Lemma app_cons_str (c : ascii) (a b : string) : String c a +:+ b = String c (a +:+ b).
Proof. reflexivity. Qed.

Ltac str_simpl := repeat (rewrite app_cons_str || rewrite app_nil_str).

Section StringFacts.

Import PyStr.

Lemma app_empty_r (s : string) : s +:+ "" = s.
Proof. induction s as [|c s IH]; str_simpl; [reflexivity | by rewrite IH]. Qed.

Lemma app_assoc_str (a b c : string) : (a +:+ b) +:+ c = a +:+ (b +:+ c).
Proof. induction a as [|x a IH]; str_simpl; [reflexivity | by rewrite IH]. Qed.

Lemma has_char_app (c : ascii) (a b : string) :
  has_char c (a +:+ b) = has_char c a || has_char c b.
Proof.
  induction a as [|x a IH]; str_simpl; cbn [has_char]; [reflexivity |].
  destruct (Ascii.eqb c x); [reflexivity | exact IH].
Qed.

Lemma prefix_nil (t : string) : String.prefix "" t = true.
Proof. by destruct t. Qed.

Lemma prefix_char (c x : ascii) (t : string) :
  String.prefix (String c "") (String x t) = Ascii.eqb c x.
Proof.
  simpl. destruct (ascii_dec c x) as [->|Hne].
  - rewrite Ascii.eqb_refl. by destruct t.
  - symmetry. by apply Ascii.eqb_neq.
Qed.

Lemma prefix_app (p a b : string) :
  String.prefix p a = true -> String.prefix p (a +:+ b) = true.
Proof.
  revert a. induction p as [|c p IH]; intros a H; [by destruct (a +:+ b) |].
  destruct a as [|x a]; str_simpl; simpl in *; [discriminate |].
  destruct (ascii_dec c x); [by apply IH | discriminate].
Qed.

(** No separator character, no cut. *)
Lemma split_aux_char_none (c : ascii) (a acc : string) :
  has_char c a = false ->
  split_aux (String c "") 0 acc a = [acc +:+ a].
Proof.
  revert acc. induction a as [|x a IH]; intros acc H.
  - simpl. by rewrite app_empty_r.
  - cbn [split_aux]. rewrite prefix_char. cbn [has_char] in H.
    destruct (Ascii.eqb c x); [discriminate |].
    rewrite IH by exact H. by rewrite app_assoc_str.
Qed.

(** The first occurrence of a one-character separator ends the first piece. *)
Lemma split_aux_char_first (c : ascii) (a b acc : string) :
  has_char c a = false ->
  split_aux (String c "") 0 acc (a +:+ String c b)
  = (acc +:+ a) :: split_aux (String c "") 0 "" b.
Proof.
  revert acc. induction a as [|x a IH]; intros acc H.
  - str_simpl; cbn [split_aux]. rewrite prefix_char, Ascii.eqb_refl.
    by rewrite app_empty_r.
  - str_simpl; cbn [split_aux]. rewrite prefix_char. cbn [has_char] in H.
    destruct (Ascii.eqb c x); [discriminate |].
    rewrite IH by exact H. by rewrite app_assoc_str.
Qed.

Lemma split_char_two (c : ascii) (a b : string) :
  has_char c a = false -> has_char c b = false ->
  split (String c "") (a +:+ String c b) = [a; b].
Proof.
  intros Ha Hb. unfold split.
  rewrite split_aux_char_first by exact Ha.
  by rewrite split_aux_char_none by exact Hb.
Qed.

Lemma split_char_one (c : ascii) (a : string) :
  has_char c a = false -> split (String c "") a = [a].
Proof. intros Ha. unfold split. by rewrite split_aux_char_none by exact Ha. Qed.

Lemma prefix_muleq (x : ascii) (t : string) :
  String.prefix "*=" (String x t) =
  Ascii.eqb "*" x && match t with String y _ => Ascii.eqb "=" y | EmptyString => false end.
Proof.
  cbn [String.prefix]. destruct (ascii_dec "*" x) as [<-|Hne].
  - rewrite Ascii.eqb_refl. destruct t as [|y t]; [reflexivity |].
    by rewrite prefix_char.
  - apply Ascii.eqb_neq in Hne. by rewrite Hne.
Qed.

Lemma contains_muleq_none (a : string) :
  has_char "=" a = false -> contains "*=" a = false.
Proof.
  induction a as [|x a IH]; intros H; [reflexivity |].
  cbn [contains]. rewrite prefix_muleq. cbn [has_char] in H.
  destruct (Ascii.eqb "=" x) eqn:Hx; [discriminate |].
  rewrite (IH H). destruct a as [|y a]; [by rewrite andb_false_r |].
  cbn [has_char] in H. destruct (Ascii.eqb "=" y); [discriminate |].
  by rewrite andb_false_r.
Qed.

Lemma split_aux_muleq_none (a acc : string) :
  has_char "=" a = false -> split_aux "*=" 0 acc a = [acc +:+ a].
Proof.
  revert acc. induction a as [|x a IH]; intros acc H.
  - simpl. by rewrite app_empty_r.
  - cbn [split_aux]. rewrite prefix_muleq. cbn [has_char] in H.
    destruct (Ascii.eqb "=" x) eqn:Hx; [discriminate |].
    assert (Hn : Ascii.eqb "*" x &&
                 match a with String y _ => Ascii.eqb "=" y | EmptyString => false end = false).
    { destruct a as [|y a]; [by rewrite andb_false_r |].
      cbn [has_char] in H. destruct (Ascii.eqb "=" y); [discriminate | by rewrite andb_false_r]. }
    rewrite Hn, IH by exact H. by rewrite app_assoc_str.
Qed.

Lemma split_aux_muleq_first (a b acc : string) :
  has_char "=" a = false ->
  split_aux "*=" 0 acc (a +:+ String "*" (String "=" b))
  = (acc +:+ a) :: split_aux "*=" 0 "" b.
Proof.
  revert acc. induction a as [|x a IH]; intros acc H.
  - str_simpl. cbn. by rewrite prefix_nil, app_empty_r.
  - str_simpl; cbn [split_aux]. rewrite prefix_muleq. cbn [has_char] in H.
    destruct (Ascii.eqb "=" x) eqn:Hx; [discriminate |].
    replace (Ascii.eqb "*" x && _) with false.
    2:{ symmetry. destruct a as [|y a]; str_simpl; [by rewrite andb_false_r |].
        cbn [has_char] in H.
        destruct (Ascii.eqb "=" y); [discriminate | by rewrite andb_false_r]. }
    rewrite IH by exact H. by rewrite app_assoc_str.
Qed.

Lemma split_muleq_two (a b : string) :
  has_char "=" a = false -> has_char "=" b = false ->
  split "*=" (a +:+ String "*" (String "=" b)) = [a; b].
Proof.
  intros Ha Hb. unfold split.
  rewrite split_aux_muleq_first by exact Ha.
  by rewrite split_aux_muleq_none by exact Hb.
Qed.

Lemma contains_muleq_mid (a b : string) :
  contains "*=" (a +:+ String "*" (String "=" b)) = true.
Proof.
  induction a as [|x a IH].
  - str_simpl. cbn [contains]. by rewrite prefix_muleq, !Ascii.eqb_refl.
  - str_simpl; cbn [contains]. rewrite IH. by rewrite orb_true_r.
Qed.

(** In a token with a single ['='], ["*="] occurs exactly when the text before
    the ['='] ends with a star. *)
Lemma contains_muleq_eq (a b : string) :
  has_char "=" a = false -> has_char "=" b = false ->
  contains "*=" (a +:+ String "=" b) = ends_with_char "*" a.
Proof.
  intros Ha Hb. induction a as [|x a IH].
  - str_simpl; cbn [contains]. rewrite prefix_muleq.
    rewrite (contains_muleq_none b Hb). reflexivity.
  - cbn [has_char] in Ha. destruct (Ascii.eqb "=" x) eqn:Hx; [discriminate |].
    str_simpl; cbn [contains]. rewrite prefix_muleq, (IH Ha).
    destruct a as [|y a].
    + cbn. rewrite andb_true_r, orb_false_r. reflexivity.
    + cbn [has_char] in Ha. str_simpl.
      destruct (Ascii.eqb "=" y) eqn:Hy; [discriminate |].
      rewrite andb_false_r. reflexivity.
Qed.

Lemma startswith_dp_md (farg : string) :
  startswith "dp" farg = true -> startswith "md" farg = false.
Proof.
  unfold startswith. destruct farg as [|x t]; [discriminate |].
  cbn [String.prefix]. destruct (ascii_dec "d" x) as [<-|]; [| discriminate].
  intros _. reflexivity.
Qed.

End StringFacts.

(** ** The override loop *)

Section OverrideFacts.

Import PyStr.

Variable B : Builtins.

Lemma try_body_parse (farg : string) (s : dicts) :
  try_body B farg s =
  match parse_token farg with
  | Raise e => (Raise e, s)
  | Ok (arg, val) =>
      (update DP "dp" farg arg (convert B val);;
       update MD "md" farg arg (convert B val)) s
  end.
Proof.
  unfold try_body, parse_token, mbind, M_bind, lift, mret, M_ret.
  destruct (unpack2 (split "=" farg)) as [[dicitem val]|e]; [| reflexivity].
  destruct (unpack2 (split "." dicitem)) as [[dic arg]|e]; [| reflexivity].
  destruct (contains "*=" farg); [| reflexivity].
  destruct (unpack2 (split "*=" farg)) as [[dicitem' val']|e]; [| reflexivity].
  destruct (unpack2 (split "." dicitem')) as [[dic' arg']|e]; reflexivity.
Qed.

Lemma token_assign_shape (dic key value : string) :
  token dic key "=" value = (dic +:+ String "." key) +:+ String "=" value.
Proof. unfold token. str_simpl. by rewrite app_assoc_str. Qed.

Lemma token_mul_shape (dic key value : string) :
  token dic key "*=" value
  = (dic +:+ String "." key) +:+ String "*" (String "=" value).
Proof. unfold token. str_simpl. by rewrite app_assoc_str. Qed.

Lemma token_mul_shape_eq (dic key value : string) :
  token dic key "*=" value
  = (dic +:+ String "." (key +:+ "*")) +:+ String "=" value.
Proof.
  unfold token. str_simpl. rewrite !app_assoc_str. str_simpl.
  by rewrite app_assoc_str.
Qed.

Section WellFormed.

Variables dic key value : string.
Hypothesis dic_dot : has_char "." dic = false.
Hypothesis dic_eq : has_char "=" dic = false.
Hypothesis key_dot : has_char "." key = false.
Hypothesis key_eq : has_char "=" key = false.
Hypothesis value_eq : has_char "=" value = false.

Lemma dicitem_eq : has_char "=" (dic +:+ String "." key) = false.
Proof using dic_eq key_eq.
  rewrite has_char_app, dic_eq. cbn [has_char orb]. by rewrite key_eq.
Qed.

Lemma contains_assign :
  ends_with_char "*" key = false -> contains "*=" (token dic key "=" value) = false.
Proof using dic_eq key_eq value_eq.
  intros Hstar. rewrite token_assign_shape.
  rewrite contains_muleq_eq by (exact dicitem_eq || exact value_eq).
  clear -Hstar. induction dic as [|x a IH]; str_simpl.
  - destruct key; [reflexivity | exact Hstar].
  - cbn [ends_with_char]. destruct (a +:+ String "." key) eqn:E; [| exact IH].
    destruct a; discriminate.
Qed.

Lemma parse_assign :
  ends_with_char "*" key = false ->
  parse_token (token dic key "=" value) = Ok (key, value).
Proof using All.
  intros Hstar. unfold parse_token.
  rewrite (contains_assign Hstar), token_assign_shape.
  rewrite split_char_two by (exact dicitem_eq || exact value_eq).
  cbn [unpack2]. by rewrite split_char_two.
Qed.

Lemma contains_mul : contains "*=" (token dic key "*=" value) = true.
Proof. rewrite token_mul_shape. apply contains_muleq_mid. Qed.

Lemma parse_mul : parse_token (token dic key "*=" value) = Ok (key, value).
Proof using All.
  unfold parse_token. rewrite contains_mul.
  rewrite token_mul_shape_eq at 1.
  rewrite split_char_two; [| | exact value_eq].
  2:{ rewrite has_char_app, dic_eq. cbn [has_char orb].
      rewrite has_char_app, key_eq. reflexivity. }
  cbn [unpack2]. rewrite split_char_two; [| exact dic_dot |].
  2:{ rewrite has_char_app, key_dot. reflexivity. }
  cbn [unpack2]. rewrite token_mul_shape.
  rewrite split_muleq_two by (exact dicitem_eq || exact value_eq).
  cbn [unpack2]. by rewrite split_char_two.
Qed.

End WellFormed.

(** An [update] that raises has written nothing. *)
Lemma update_raise d name farg arg v s e s' :
  update d name farg arg v s = (Raise e, s') -> s' = s.
Proof.
  unfold update, mbind, M_bind, lift, getitem, setitem, mret, M_ret.
  destruct (startswith name farg); [| congruence].
  destruct (contains "*=" farg); [| destruct (refused arg); congruence].
  destruct (sel d s !! arg); [| congruence].
  destruct (PyNum.py_mul _ _); [destruct (refused arg) |]; congruence.
Qed.

Lemma update_skip d name farg arg v s :
  startswith name farg = false -> update d name farg arg v s = (Ok tt, s).
Proof. unfold update. by intros ->. Qed.

Lemma update_assign d name farg arg v s :
  startswith name farg = true -> contains "*=" farg = false ->
  refused arg = None ->
  update d name farg arg v s = (Ok tt, upd d <[arg := v]> s).
Proof. unfold update, setitem. by intros -> -> ->. Qed.

Lemma update_refused d name farg arg v s e :
  startswith name farg = true -> contains "*=" farg = false ->
  refused arg = Some e ->
  update d name farg arg v s = (Raise e, s).
Proof. unfold update, setitem. by intros -> -> ->. Qed.

Lemma update_mul d name farg arg v s old new :
  startswith name farg = true -> contains "*=" farg = true ->
  sel d s !! arg = Some old -> PyNum.py_mul old v = Ok new ->
  refused arg = None ->
  update d name farg arg v s = (Ok tt, upd d <[arg := new]> s).
Proof.
  unfold update, mbind, M_bind, lift, getitem, setitem.
  by intros -> -> -> -> ->.
Qed.

Lemma update_mul_refused d name farg arg v s old new e :
  startswith name farg = true -> contains "*=" farg = true ->
  sel d s !! arg = Some old -> PyNum.py_mul old v = Ok new ->
  refused arg = Some e ->
  update d name farg arg v s = (Raise e, s).
Proof.
  unfold update, mbind, M_bind, lift, getitem, setitem.
  by intros -> -> -> -> ->.
Qed.

Lemma startswith_md_dp (farg : string) :
  startswith "md" farg = true -> startswith "dp" farg = false.
Proof.
  intros H. destruct (startswith "dp" farg) eqn:E; [| reflexivity].
  apply startswith_dp_md in E. congruence.
Qed.

(** The two [if] statements, for a token that starts with one of the names. *)
Lemma updates_one (d : dictname) farg arg v s r :
  startswith (name_of d) farg = true ->
  update d (name_of d) farg arg v s = (Ok tt, r) ->
  (update DP "dp" farg arg v;; update MD "md" farg arg v) s = (Ok tt, r).
Proof.
  intros Hd Hu. unfold mbind, M_bind. destruct d; cbn [name_of] in *.
  - rewrite Hu. apply update_skip. by apply startswith_dp_md.
  - rewrite update_skip by (by apply startswith_md_dp). exact Hu.
Qed.

(** The two [if] statements when the one that applies raises. *)
Lemma updates_one_raise (d : dictname) farg arg v s e :
  startswith (name_of d) farg = true ->
  update d (name_of d) farg arg v s = (Raise e, s) ->
  (update DP "dp" farg arg v;; update MD "md" farg arg v) s = (Raise e, s).
Proof.
  intros Hd Hu. unfold mbind, M_bind. destruct d; cbn [name_of] in *.
  - by rewrite Hu.
  - rewrite update_skip by (by apply startswith_md_dp). exact Hu.
Qed.

(** What a write leaves in the dictionaries. *)
Lemma upd_lookup (d : dictname) (k : string) (v : pyval) (s : dicts) :
  sel d (upd d <[k := v]> s) !! k = Some v.
Proof. destruct d; cbn; apply lookup_insert_eq. Qed.

Lemma upd_lookup_ne (d : dictname) (k k' : string) (v : pyval) (s : dicts) :
  k' <> k -> sel d (upd d <[k := v]> s) !! k' = sel d s !! k'.
Proof. intros H. destruct d; cbn; by rewrite lookup_insert_ne. Qed.

Lemma upd_other (d d' : dictname) (k : string) (v : pyval) (s : dicts) :
  d' <> d -> sel d' (upd d <[k := v]> s) = sel d' s.
Proof. intros H. by destruct d, d'. Qed.

(** The names the object keeps for itself. *)
Lemma refused_names (k : string) :
  refused k <> None -> k = "__class__" \/ k = "__dict__" \/ k = "__weakref__".
Proof.
  unfold refused. intros H.
  destruct (String.eqb k "__class__") eqn:E1; [apply String.eqb_eq in E1; auto |].
  destruct (String.eqb k "__dict__") eqn:E2; [apply String.eqb_eq in E2; auto |].
  destruct (String.eqb k "__weakref__") eqn:E3; [apply String.eqb_eq in E3; auto |].
  done.
Qed.

Lemma refused_no_star (k : string) :
  refused k <> None -> ends_with_char "*" k = false.
Proof. intros H. by destruct (refused_names k H) as [-> | [-> | ->]]. Qed.

(** An [update] writes to its own dictionary only. *)
Lemma update_other d name farg arg v s r s' d' :
  update d name farg arg v s = (r, s') -> d' <> d -> sel d' s' = sel d' s.
Proof.
  unfold update, mbind, M_bind, lift, getitem, setitem, mret, M_ret.
  intros H Hne.
  destruct (startswith name farg); [| by simplify_eq].
  destruct (contains "*=" farg).
  - destruct (sel d s !! arg); [| by simplify_eq].
    destruct (PyNum.py_mul _ _); [| by simplify_eq].
    destruct (refused arg); simplify_eq; [done | by destruct d, d'].
  - destruct (refused arg); simplify_eq; [done | by destruct d, d'].
Qed.

(** A token that starts with the name of one dictionary leaves the other
    one alone, whatever else it holds. *)
Lemma override_token_other (d d' : dictname) (farg : string) (s : dicts) :
  startswith (name_of d) farg = true -> d' <> d ->
  sel d' (override_token B farg s) = sel d' s.
Proof.
  intros Hst Hne. unfold override_token. rewrite try_body_parse.
  destruct (parse_token farg) as [[arg val]|e]; [| reflexivity].
  unfold mbind, M_bind.
  destruct d, d'; try done; cbn [name_of] in Hst.
  - (* a [dp] token: the second statement is skipped *)
    destruct (update DP "dp" farg arg (convert B val) s) as [r1 s1] eqn:H1.
    assert (E : sel MD s1 = sel MD s) by (by apply (update_other _ _ _ _ _ _ _ _ MD H1)).
    destruct r1 as [[]|e]; cbn [snd]; [| exact E].
    rewrite update_skip by (by apply startswith_dp_md). exact E.
  - (* a [md] token: the first statement is skipped *)
    rewrite update_skip by (by apply startswith_md_dp).
    destruct (update MD "md" farg arg (convert B val) s) as [r2 s2] eqn:H2.
    by apply (update_other _ _ _ _ _ _ _ _ DP H2).
Qed.

Section WellFormedEffect.

Variables (d : dictname) (dic key value : string) (s : dicts).
Hypothesis dic_name : startswith (name_of d) dic = true.
Hypothesis dic_dot : has_char "." dic = false.
Hypothesis dic_eq : has_char "=" dic = false.
Hypothesis key_dot : has_char "." key = false.
Hypothesis key_eq : has_char "=" key = false.
Hypothesis value_eq : has_char "=" value = false.

Lemma token_startswith (op : string) :
  startswith (name_of d) (token dic key op value) = true.
Proof using dic_name. unfold token, startswith. by apply prefix_app. Qed.

(** A well-formed [=] token. *)
Lemma override_assign_wf :
  ends_with_char "*" key = false ->
  override_token B (token dic key "=" value) s =
  match refused key with
  | Some _ => s
  | None => upd d <[key := convert B value]> s
  end.
Proof using All.
  intros Hstar. unfold override_token. rewrite try_body_parse.
  rewrite parse_assign by assumption.
  destruct (refused key) as [e|] eqn:Hr.
  - erewrite updates_one_raise; [reflexivity | apply token_startswith |].
    apply update_refused; [apply token_startswith | by apply contains_assign | exact Hr].
  - erewrite updates_one; [reflexivity | apply token_startswith |].
    apply update_assign; [apply token_startswith | by apply contains_assign | exact Hr].
Qed.

(** A well-formed [*=] token on an entry that can be multiplied. *)
Lemma override_mul_wf (old new : pyval) :
  sel d s !! key = Some old ->
  PyNum.py_mul old (convert B value) = Ok new ->
  override_token B (token dic key "*=" value) s =
  match refused key with
  | Some _ => s
  | None => upd d <[key := new]> s
  end.
Proof using All.
  intros Hold Hmul. unfold override_token. rewrite try_body_parse.
  rewrite parse_mul by assumption.
  destruct (refused key) as [e|] eqn:Hr.
  - erewrite updates_one_raise; [reflexivity | apply token_startswith |].
    eapply update_mul_refused;
      [apply token_startswith | by apply contains_mul | exact Hold | exact Hmul | exact Hr].
  - erewrite updates_one; [reflexivity | apply token_startswith |].
    eapply update_mul;
      [apply token_startswith | by apply contains_mul | exact Hold | exact Hmul | exact Hr].
Qed.

(** A well-formed token on a name the object keeps for itself. *)
Lemma override_refused_wf (op : string) :
  op = "=" \/ op = "*=" -> refused key <> None ->
  override_token B (token dic key op value) s = s.
Proof using All.
  intros Hop Hr. destruct (refused key) as [e|] eqn:Hk; [| done].
  destruct Hop as [-> | ->].
  - rewrite override_assign_wf, Hk; [reflexivity |].
    apply refused_no_star. by rewrite Hk.
  - unfold override_token. rewrite try_body_parse.
    rewrite parse_mul by assumption.
    assert (Hu : exists r,
      update d (name_of d) (token dic key "*=" value) key (convert B value) s = (Raise r, s)).
    { unfold update, mbind, M_bind, lift, getitem, setitem.
      rewrite token_startswith, contains_mul.
      destruct (sel d s !! key) as [old|]; [| by eexists].
      destruct (PyNum.py_mul old (convert B value)); [| by eexists].
      rewrite Hk. by eexists. }
    destruct Hu as [r Hu].
    by erewrite updates_one_raise; [| apply token_startswith | exact Hu].
Qed.

End WellFormedEffect.

End OverrideFacts.

(** ** Claims on the override loop *)

(** C5, as amended.  A well-formed token [dict.key=value] or
    [dict.key*=value] addressed to [dp] or [md]: the value text ['True']
    becomes the boolean True, ['False'] the boolean False, any other text
    that [float()] accepts that float, and everything else stays a string.
    Unless the key is one of the three names the dictionary object keeps for
    itself, [=] sets the entry of [key] to the converted value and [*=] sets
    it to its previous value times the converted value: the entry reads back
    as that value, and every other entry of either dictionary is as before.
    On the three names the assignment raises and the token changes
    nothing. *)
Theorem override_well_formed_token (B : Builtins) (d : dictname)
    (key value : string) (s : dicts) :
  PyStr.has_char "." key = false ->
  PyStr.has_char "=" key = false ->
  PyStr.has_char "=" value = false ->
  (value = "True" -> convert B value = VBool true) /\
  (value = "False" -> convert B value = VBool false) /\
  (value <> "True" -> value <> "False" ->
     forall f, float_of_str B value = Some f -> convert B value = VFloat f) /\
  (value <> "True" -> value <> "False" ->
     float_of_str B value = None -> convert B value = VStr value) /\
  (refused key = None -> PyStr.ends_with_char "*" key = false ->
     let s' := override_token B (token (name_of d) key "=" value) s in
     s' = upd d <[key := convert B value]> s /\
     sel d s' !! key = Some (convert B value) /\
     (forall k, k <> key -> sel d s' !! k = sel d s !! k) /\
     (forall d', d' <> d -> sel d' s' = sel d' s)) /\
  (refused key = None ->
   forall old new,
     sel d s !! key = Some old ->
     PyNum.py_mul old (convert B value) = Ok new ->
     let s' := override_token B (token (name_of d) key "*=" value) s in
     s' = upd d <[key := new]> s /\
     sel d s' !! key = Some new /\
     (forall k, k <> key -> sel d s' !! k = sel d s !! k) /\
     (forall d', d' <> d -> sel d' s' = sel d' s)) /\
  (refused key <> None ->
   override_token B (token (name_of d) key "=" value) s = s /\
   override_token B (token (name_of d) key "*=" value) s = s).
Proof.
  intros Hkd Hke Hve.
  assert (Hdn : PyStr.startswith (name_of d) (name_of d) = true) by (by destruct d).
  assert (Hdd : PyStr.has_char "." (name_of d) = false) by (by destruct d).
  assert (Hde : PyStr.has_char "=" (name_of d) = false) by (by destruct d).
  split; [by intros -> |]. split; [by intros -> |].
  split.
  { intros Ht Hf f Hfl. unfold convert.
    apply String.eqb_neq in Ht, Hf. by rewrite Ht, Hf, Hfl. }
  split.
  { intros Ht Hf Hfl. unfold convert.
    apply String.eqb_neq in Ht, Hf. by rewrite Ht, Hf, Hfl. }
  split; [| split].
  - intros Hr Hstar s'. subst s'.
    rewrite (override_assign_wf B d) by assumption. rewrite Hr.
    split; [reflexivity |]. split; [apply upd_lookup |].
    split; [intros k Hk; by apply upd_lookup_ne | intros d' Hd'; by apply upd_other].
  - intros Hr old new Hold Hmul s'. subst s'.
    rewrite (override_mul_wf B d _ _ _ _ Hdn Hdd Hde Hkd Hke Hve old new Hold Hmul), Hr.
    split; [reflexivity |]. split; [apply upd_lookup |].
    split; [intros k Hk; by apply upd_lookup_ne | intros d' Hd'; by apply upd_other].
  - intros Hr. split; apply (override_refused_wf B d); auto.
Qed.

Lemma override_well_formed_token_witness :
  (PyStr.has_char "." "fa" = false /\
   PyStr.has_char "=" "fa" = false /\
   PyStr.has_char "=" "2" = false) /\
  override_token Reference.python2 "dp.fa*=2" (defaults Isotropic)
  = upd DP <["fa" := VFloat 60]> (defaults Isotropic) /\
  dp (override_token Reference.python2 "dp.fa=2" (defaults Isotropic)) !! "fa"
  = Some (VFloat 2).
Proof.
  split; [repeat split |].
  destruct (override_well_formed_token Reference.python2 DP "fa" "2"
              (defaults Isotropic) eq_refl eq_refl eq_refl)
    as (_ & _ & _ & _ & Hassign & Hmul & _).
  split.
  - apply (Hmul eq_refl (VFloat 30) (VFloat 60)); reflexivity.
  - apply (Hassign eq_refl eq_refl).
Defined.

(** C5 as worded fails on a name the object keeps for itself: the well-formed
    token [dp.__class__=5] does not set the entry of [__class__]. *)
Lemma override_reserved_key_counterexample :
  ~ (forall (d : dictname) (key value : string) (s : dicts),
       PyStr.has_char "." key = false ->
       PyStr.has_char "=" key = false ->
       PyStr.has_char "=" value = false ->
       PyStr.ends_with_char "*" key = false ->
       sel d (override_token Reference.python2 (token (name_of d) key "=" value) s) !! key
       = Some (convert Reference.python2 value)).
Proof.
  intros H.
  specialize (H DP "__class__" "5" (defaults Isotropic) eq_refl eq_refl eq_refl eq_refl).
  vm_compute in H. discriminate H.
Qed.

(** C6.  A token whose [try] body raises is skipped: the exception is
    swallowed and both dictionaries are exactly as before the token. *)
Theorem override_exception_leaves_dicts (B : Builtins) (farg : string)
    (s s' : dicts) (e : exn) :
  try_body B farg s = (Raise e, s') ->
  s' = s /\ override_token B farg s = s.
Proof.
  intros H. assert (Hs : s' = s).
  { rewrite try_body_parse in H.
    destruct (parse_token farg) as [[arg val]|e0]; [| congruence].
    unfold mbind, M_bind in H.
    destruct (update DP "dp" farg arg (convert B val) s) as [[[]|e1] s1] eqn:Hdp.
    - destruct (PyStr.startswith "md" farg) eqn:Hmd.
      + apply startswith_md_dp in Hmd.
        rewrite update_skip in Hdp by exact Hmd.
        injection Hdp as <-. by apply update_raise in H.
      + rewrite update_skip in H by exact Hmd. discriminate.
    - injection H as _ <-. by apply update_raise in Hdp. }
  split; [exact Hs |]. unfold override_token. by rewrite H.
Qed.

Lemma override_exception_leaves_dicts_witness :
  try_body Reference.python2 "dp.zeta*=2" (defaults Isotropic)
  = (Raise KeyError, defaults Isotropic) /\
  override_token Reference.python2 "dp.zeta*=2" (defaults Isotropic)
  = defaults Isotropic.
Proof.
  assert (H : try_body Reference.python2 "dp.zeta*=2" (defaults Isotropic)
              = (Raise KeyError, defaults Isotropic)) by reflexivity.
  split; [exact H |].
  exact (proj2 (override_exception_leaves_dicts _ _ _ _ _ H)).
Defined.

(** The three malformed shapes named by the claim do raise. *)
Lemma no_equals_raises (B : Builtins) (farg : string) (s : dicts) :
  PyStr.has_char "=" farg = false ->
  try_body B farg s = (Raise ValueError, s).
Proof.
  intros H. rewrite try_body_parse. unfold parse_token.
  by rewrite split_char_one.
Qed.

Lemma no_dot_raises (B : Builtins) (dicitem value : string) (s : dicts) :
  PyStr.has_char "=" dicitem = false -> PyStr.has_char "." dicitem = false ->
  PyStr.has_char "=" value = false ->
  try_body B (dicitem +:+ String "=" value) s = (Raise ValueError, s).
Proof.
  intros H1 H2 H3. rewrite try_body_parse. unfold parse_token.
  rewrite split_char_two by assumption. cbn [unpack2].
  by rewrite split_char_one.
Qed.

Lemma mul_absent_key_raises (B : Builtins) (d : dictname) (key value : string)
    (s : dicts) :
  PyStr.has_char "." key = false -> PyStr.has_char "=" key = false ->
  PyStr.has_char "=" value = false ->
  sel d s !! key = None ->
  try_body B (token (name_of d) key "*=" value) s = (Raise KeyError, s).
Proof.
  intros H1 H2 H3 Hnone. rewrite try_body_parse.
  rewrite parse_mul by (assumption || by destruct d).
  assert (Hst : PyStr.startswith (name_of d) (token (name_of d) key "*=" value) = true).
  { unfold token, PyStr.startswith. apply prefix_app. by destruct d. }
  assert (Hu : update d (name_of d) (token (name_of d) key "*=" value) key
                 (convert B value) s = (Raise KeyError, s)).
  { unfold update, mbind, M_bind, getitem.
    by rewrite Hst, contains_mul, Hnone. }
  unfold mbind, M_bind. destruct d; cbn [name_of] in *.
  - by rewrite Hu.
  - rewrite update_skip by (by apply startswith_md_dp). exact Hu.
Qed.

(** C10, as amended.  The dispatch looks at how the raw token starts.  A
    token that starts with neither ["dp"] nor ["md"] changes nothing and
    raises nothing.  A token that starts with ["dp"] never touches [md], and
    one that starts with ["md"] never touches [dp], whatever else it holds.
    A well-formed token whose dictionary part merely starts with ["dp"] (or
    ["md"]) acts on [dp] (or [md]): with [=] it writes the entry, creating it
    when the key is new, and with [*=] it multiplies the entry; except on the
    three names the dictionary object keeps for itself, where it changes
    nothing. *)
Theorem override_dispatch_on_prefix (B : Builtins) (s : dicts) :
  (forall farg,
     PyStr.startswith "dp" farg = false -> PyStr.startswith "md" farg = false ->
     override_token B farg s = s) /\
  (forall farg,
     PyStr.startswith "dp" farg = true -> md (override_token B farg s) = md s) /\
  (forall farg,
     PyStr.startswith "md" farg = true -> dp (override_token B farg s) = dp s) /\
  (forall d dic key value,
     PyStr.startswith (name_of d) dic = true ->
     PyStr.has_char "." dic = false -> PyStr.has_char "=" dic = false ->
     PyStr.has_char "." key = false -> PyStr.has_char "=" key = false ->
     PyStr.has_char "=" value = false ->
     (refused key = None -> PyStr.ends_with_char "*" key = false ->
      let s' := override_token B (token dic key "=" value) s in
      s' = upd d <[key := convert B value]> s /\
      sel d s' !! key = Some (convert B value) /\
      (forall d', d' <> d -> sel d' s' = sel d' s)) /\
     (refused key = None ->
      forall old new,
        sel d s !! key = Some old ->
        PyNum.py_mul old (convert B value) = Ok new ->
        let s' := override_token B (token dic key "*=" value) s in
        s' = upd d <[key := new]> s /\
        sel d s' !! key = Some new /\
        (forall d', d' <> d -> sel d' s' = sel d' s)) /\
     (refused key <> None ->
      override_token B (token dic key "=" value) s = s /\
      override_token B (token dic key "*=" value) s = s)).
Proof.
  split; [| split; [| split; [| ]]].
  - intros farg Hdp Hmd. unfold override_token. rewrite try_body_parse.
    destruct (parse_token farg) as [[arg val]|e]; [| reflexivity].
    unfold mbind, M_bind. by rewrite !update_skip.
  - intros farg H. by apply (override_token_other B DP MD).
  - intros farg H. by apply (override_token_other B MD DP).
  - intros d dic key value Hst Hdd Hde Hkd Hke Hve. split; [| split].
    + intros Hr Hstar s'. subst s'.
      rewrite (override_assign_wf B d) by assumption. rewrite Hr.
      split; [reflexivity |]. split; [apply upd_lookup |].
      intros d' Hd'. by apply upd_other.
    + intros Hr old new Hold Hmul s'. subst s'.
      rewrite (override_mul_wf B d _ _ _ _ Hst Hdd Hde Hkd Hke Hve old new Hold Hmul), Hr.
      split; [reflexivity |]. split; [apply upd_lookup |].
      intros d' Hd'. by apply upd_other.
    + intros Hr. split; apply (override_refused_wf B d); auto.
Qed.

Lemma override_dispatch_on_prefix_witness :
  override_token Reference.python2 "sf.LS=1" (defaults Isotropic) = defaults Isotropic /\
  override_token Reference.python2 "mdp.res=64" (defaults Isotropic)
  = upd MD <["res" := VFloat 64]> (defaults Isotropic) /\
  override_token Reference.python2 "dpx.fa*=2" (defaults Isotropic)
  = upd DP <["fa" := VFloat 60]> (defaults Isotropic) /\
  md (override_token Reference.python2 "dp=md.res=1" (defaults Isotropic))
  = md (defaults Isotropic).
Proof.
  destruct (override_dispatch_on_prefix Reference.python2 (defaults Isotropic))
    as (Hskip & Hdp & _ & Hwf).
  split; [apply Hskip; reflexivity |].
  split; [| split].
  - apply (Hwf MD "mdp" "res" "64"); reflexivity.
  - apply (proj1 (proj2 (Hwf DP "dpx" "fa" "2" eq_refl eq_refl eq_refl eq_refl eq_refl
                           eq_refl)) eq_refl (VFloat 30) (VFloat 60)); reflexivity.
  - apply Hdp. reflexivity.
Defined.

(** C10 as worded fails on a name the object keeps for itself: the token
    [dpx.__class__=5] starts with ["dp"] and names a key that [dp] does not
    hold, yet adds no entry. *)
Lemma override_new_key_counterexample :
  ~ (forall (dic key value : string) (s : dicts),
       PyStr.startswith "dp" dic = true ->
       PyStr.has_char "." dic = false -> PyStr.has_char "=" dic = false ->
       PyStr.has_char "." key = false -> PyStr.has_char "=" key = false ->
       PyStr.ends_with_char "*" key = false ->
       PyStr.has_char "=" value = false ->
       dp s !! key = None ->
       is_Some (dp (override_token Reference.python2 (token dic key "=" value) s) !! key)).
Proof.
  intros H.
  specialize (H "dpx" "__class__" "5" (defaults Isotropic)
                eq_refl eq_refl eq_refl eq_refl eq_refl eq_refl eq_refl eq_refl).
  vm_compute in H. destruct H as [v H]. discriminate H.
Qed.

Example ignores_sf :
  override_token Reference.python2 "sf.LS=1" (defaults Isotropic) = defaults Isotropic.
Proof. reflexivity. Qed.

Example ignores_ndp :
  override_token Reference.python2 "ndp.fa=1" (defaults TiModel) = defaults TiModel.
Proof. reflexivity. Qed.

Example dpx_new_entry :
  dp (override_token Reference.python2 "dpx.fresh=abc" (defaults Isotropic)) !! "fresh"
  = Some (VStr "abc")
  /\ Defaults.dp_isotropic !! "fresh" = None.
Proof. split; reflexivity. Qed.

(** ** Examples: strings, numbers and the reference interpreter *)

Example split_eq : PyStr.split "=" "dp.x*=2" = ["dp.x*"; "2"]. Proof. reflexivity. Qed.
Example split_muleq : PyStr.split "*=" "dp.x*=2" = ["dp.x"; "2"]. Proof. reflexivity. Qed.
Example split_end : PyStr.split "*=" "a*=" = ["a"; ""]. Proof. reflexivity. Qed.
Example split_two : PyStr.split "=" "a=b=c" = ["a"; "b"; "c"]. Proof. reflexivity. Qed.
Example split_none : PyStr.split "=" "abc" = ["abc"]. Proof. reflexivity. Qed.
Example split_empty : PyStr.split "=" "" = [""]. Proof. reflexivity. Qed.
Example int_of_float_ten : PyNum.int_of_float 10%float = Ok 10. Proof. vm_compute. reflexivity. Qed.
Example int_of_float_truncates : PyNum.int_of_float (-10.7)%float = Ok (-10). Proof. vm_compute. reflexivity. Qed.
Example float_of_Z_small : PyNum.float_of_Z 32 = Ok 32%float. Proof. vm_compute. reflexivity. Qed.
Example float_of_Z_negative : PyNum.float_of_Z (-3) = Ok (-3)%float. Proof. vm_compute. reflexivity. Qed.
Example float_of_Z_rounds : PyNum.float_of_Z (2^53+1) = Ok 9007199254740992%float. Proof. vm_compute. reflexivity. Qed.
Example float_of_Z_overflow : PyNum.float_of_Z (2^1024) = Raise OverflowError. Proof. vm_compute. reflexivity. Qed.

Example int_times_string :
  md (override_token Reference.python2 "md.ppc*=ab" (defaults TiModel)) !! "ppc"
  = Some (VStr (PyStr.repeat_str "ab" 35)).
Proof. vm_compute. reflexivity. Qed.

Example int_literal_1 : Reference.int_literal " -12 " = Some (-12). Proof. reflexivity. Qed.
Example int_literal_2 : Reference.int_literal "2.5" = None. Proof. reflexivity. Qed.
Example int_literal_3 : Reference.int_literal "" = None. Proof. reflexivity. Qed.
Example int_literal_4 : Reference.int_literal "+" = None. Proof. reflexivity. Qed.
Example float_literal_1 : Reference.float_literal "2.5" = Some 2.5%float. Proof. vm_compute. reflexivity. Qed.
Example float_literal_2 : Reference.float_literal "0.1" = Some 0.1%float. Proof. vm_compute. reflexivity. Qed.
Example float_literal_3 : Reference.float_literal "3" = Some 3%float. Proof. vm_compute. reflexivity. Qed.
Example float_literal_4 : Reference.float_literal "." = None. Proof. vm_compute. reflexivity. Qed.
Example float_literal_5 : Reference.float_literal "5." = Some 5%float. Proof. vm_compute. reflexivity. Qed.
Example float_literal_6 : Reference.float_literal ".5" = Some 0.5%float. Proof. vm_compute. reflexivity. Qed.
Example float_literal_7 : Reference.float_literal "abc" = None. Proof. vm_compute. reflexivity. Qed.
Example float_literal_8 : Reference.float_literal "-1.25 " = Some (-1.25)%float. Proof. vm_compute. reflexivity. Qed.
Example float_literal_9 : Reference.float_literal "1e-10" = Some 1e-10%float. Proof. vm_compute. reflexivity. Qed.
Example float_literal_10 : Reference.float_literal "9.81" = Some 9.81%float. Proof. vm_compute. reflexivity. Qed.
Example float_literal_11 : Reference.float_literal "1e23" = Some 1e23%float. Proof. vm_compute. reflexivity. Qed.
Example float_literal_12 : Reference.float_literal "2.2250738585072014e-308" = Some 2.2250738585072014e-308%float. Proof. vm_compute. reflexivity. Qed.
Example float_literal_13 : Reference.float_literal "4.9e-324" = Some 4.9e-324%float. Proof. vm_compute. reflexivity. Qed.
Example float_literal_14 : Reference.float_literal "1e400" = Some infinity. Proof. vm_compute. reflexivity. Qed.
Example float_literal_15 : Reference.float_literal "1e-400" = Some 0%float. Proof. vm_compute. reflexivity. Qed.
Example float_literal_16 : Reference.float_literal "0.30000000000000004" = Some 0.30000000000000004%float. Proof. vm_compute. reflexivity. Qed.
Example float_literal_17 : Reference.float_literal "123456789012345678901234567890" = Some 123456789012345678901234567890%float. Proof. vm_compute. reflexivity. Qed.
Example float_literal_18 : Reference.float_literal "-Infinity" = Some neg_infinity. Proof. vm_compute. reflexivity. Qed.
Example float_literal_19 : Reference.float_literal "1.7976931348623157e308" = Some 1.7976931348623157e308%float. Proof. vm_compute. reflexivity. Qed.
Example float_literal_20 : Reference.float_literal "1.7976931348623159e308" = Some infinity. Proof. vm_compute. reflexivity. Qed.
Example float_literal_21 : Reference.float_literal "3.141592653589793238462643383279" = Some 3.141592653589793%float. Proof. vm_compute. reflexivity. Qed.
Example float_literal_22 : Reference.float_literal "e5" = None. Proof. vm_compute. reflexivity. Qed.
Example float_literal_23 : Reference.float_literal "1e" = None. Proof. vm_compute. reflexivity. Qed.
Example float_literal_24 : Reference.float_literal "2.4703282292062327e-324" = Some 0%float. Proof. vm_compute. reflexivity. Qed.
Example float_literal_25 : Reference.float_literal "2.4703282292062328e-324" = Some 4.9e-324%float. Proof. vm_compute. reflexivity. Qed.


(** ** Claims on the model name *)

Section ModelNameFacts.

Variable B : Builtins.

Lemma default_last_cons {A : Type} (d x : A) (l : list A) :
  default d (last (x :: l)) = default x (last l).
Proof. rewrite last_cons. by destruct (last l). Qed.

Lemma positional_cons (a : string) (args : list string) :
  positional (a :: args) =
  if negb (PyStr.contains "=" a) then a :: positional args else positional args.
Proof. reflexivity. Qed.

Lemma filter_cons_bool {A : Type} (f : A -> bool) (a : A) (l : list A) :
  List.filter f (a :: l) = if f a then a :: List.filter f l else List.filter f l.
Proof. reflexivity. Qed.

Lemma omap_cons_eq {A C : Type} (f : A -> option C) (a : A) (l : list A) :
  omap f (a :: l) = match f a with Some y => y :: omap f l | None => omap f l end.
Proof. reflexivity. Qed.

Lemma model_step_eq (Model : string) (ModNum : Z) (a : string) :
  model_step B (Model, ModNum) a =
  if negb (PyStr.contains "=" a)
  then match int_of_str B a with Some n => (Model, n) | None => (a, ModNum) end
  else (Model, ModNum).
Proof. reflexivity. Qed.

Lemma model_fold (args : list string) (Model : string) (ModNum : Z) :
  foldl (model_step B) (Model, ModNum) args =
  (default Model (last (List.filter (fun a => negb (is_int B a)) (positional args))),
   default ModNum (last (omap (int_of_str B) (positional args)))).
Proof.
  revert Model ModNum. induction args as [|a args IH]; intros Model ModNum.
  - reflexivity.
  - rewrite positional_cons. cbn [foldl]. rewrite model_step_eq.
    destruct (negb (PyStr.contains "=" a)); [| apply IH].
    rewrite filter_cons_bool, omap_cons_eq. unfold is_int at 1.
    destruct (int_of_str B a); cbn [negb];
      rewrite IH, ?default_last_cons; reflexivity.
Qed.

End ModelNameFacts.

(** C7, as amended.  With no argument, or with ['-f'] first, the defaults
    [Model = 'T'] and [ModNum = 0] stay.  Otherwise, among the arguments
    without ['='], the last one that [int()] accepts gives [ModNum] and the
    last one that [int()] rejects (a word, or a decimal such as [2.5]) gives
    [Model]; a missing kind keeps its default. *)
Theorem model_name_int_or_string (B : Builtins) (args : list string) :
  (args = [] \/ head args = Some "-f" -> model_name B args = ("T", 0)) /\
  (head args <> Some "-f" ->
   model_name B args =
   (default "T" (last (List.filter (fun a => negb (is_int B a)) (positional args))),
    default 0 (last (omap (int_of_str B) (positional args))))).
Proof.
  split.
  - intros [-> | H]; [reflexivity |].
    destruct args as [|a1 args]; [discriminate |].
    cbn in H. injection H as ->. reflexivity.
  - intros H. destruct args as [|a1 args]; [reflexivity |].
    unfold model_name. destruct (String.eqb a1 "-f") eqn:E.
    + apply String.eqb_eq in E. subst a1. by destruct H.
    + apply model_fold.
Qed.

Lemma model_name_int_or_string_witness :
  head ["B"; "7"; "dp.fa=20"; "2.5"] <> Some "-f" /\
  model_name Reference.python2 ["B"; "7"; "dp.fa=20"; "2.5"] = ("2.5", 7).
Proof.
  split; [discriminate |].
  rewrite (proj2 (model_name_int_or_string Reference.python2
                    ["B"; "7"; "dp.fa=20"; "2.5"])) by discriminate.
  reflexivity.
Defined.

(** C7 as worded fails on a decimal: [2.5] is numeric (it is what [float()]
    accepts), yet it becomes the model letter and the model number keeps its
    default. *)
Lemma model_name_decimal_counterexample :
  ~ (forall farg x,
       PyStr.contains "=" farg = false -> farg <> "-f" ->
       float_of_str Reference.python2 farg = Some x ->
       exists n, model_name Reference.python2 [farg] = ("T", n)).
Proof.
  intros H.
  destruct (H "2.5" 2.5%float eq_refl ltac:(discriminate) eq_refl) as [n Hn].
  discriminate Hn.
Qed.

Example model_name_decimal :
  model_name Reference.python2 ["2.5"] = ("2.5", 0).
Proof. reflexivity. Qed.

(** ** Claims on the non-dimensional parameters *)

Ltac inv_result H :=
  cbv zeta in H;
  repeat lazymatch type of H with
  | mbind _ ?m = Ok _ =>
      let E := fresh "E" in
      let v := fresh "v" in
      destruct m as [v|] eqn:E;
      [ cbn [mbind result_bind] in H; cbv beta zeta in H; try inv_result E
      | discriminate H ]
  end.

Ltac same_attr :=
  repeat match goal with
  | H1 : PyOps.attr ?d ?k = Ok ?a, H2 : PyOps.attr ?d ?k = Ok ?b |- _ =>
      rewrite H1 in H2
  | H : PyOps.attr (list_to_map _) _ = Ok _ |- _ => vm_compute in H
  end;
  simplify_eq;
  repeat match goal with
  | H1 : ?f = Ok ?a, H2 : ?f = Ok ?b |- _ => rewrite H1 in H2; simplify_eq
  end.

Lemma attr_ok (d : gmap string pyval) (k : string) (v : pyval) :
  PyOps.attr d k = Ok v -> d !! k = Some v.
Proof. unfold PyOps.attr. destruct (d !! k); congruence. Qed.

Ltac solve_quotient :=
  unfold quotient_of; cbn [scale_of]; do 3 eexists;
  split; [apply attr_ok; eassumption |];
  split; [first [apply attr_ok; eassumption | reflexivity] |];
  split; [reflexivity | eassumption].

Ltac ndp_keys Hk :=
  repeat (apply lookup_insert_is_Some in Hk as [<- | [_ Hk]];
          [ first [ by left; cbn; set_solver
                  | by right; left
                  | by right; right; left
                  | by right; right; right; left
                  | by right; right; right; right ] |]);
  by apply lookup_empty_is_Some in Hk.

(** C4, as amended.  Whenever the non-dimensionalisation goes through, each
    entry of [ndp] listed in [scales] is the [dp] entry of the same name
    divided by its scale factor; [ndp.a] is [dp.a] unchanged; [ndp.fa] is the
    friction coefficient, the sine (isotropic) or the tangent (ti_model) of
    the friction angle; in isotropic.py [ndp.cohesion] is
    [dp.cohesion / sf.stress] times the cosine of the friction angle; and
    [ndp] has no other entry that shares its name with one of [dp], except
    [U] in ti_model.py, which is [dp.U0 / sf.vel]. *)
Theorem nondim_quotients (B : Builtins) (L : MathLib) (sc : script)
    (dp sf ndp : gmap string pyval) :
  nondim B L sc dp = Ok (sf, ndp) ->
  Forall (fun e => quotient_of B (dp !! e.1) (scale_of sf dp e.2) (ndp !! e.1))
         (scales sc) /\
  ndp !! "a" = dp !! "a" /\
  (exists fa v,
     dp !! "fa" = Some fa /\ friction L sc fa = Ok v /\ ndp !! "fa" = Some v) /\
  (sc = Isotropic ->
   exists x st q fa r c v,
     dp !! "cohesion" = Some x /\ sf !! "stress" = Some st /\
     PyOps.py_div B x st = Ok q /\
     dp !! "fa" = Some fa /\ np_radians L fa = Ok r /\ np_cos L r = Ok c /\
     PyNum.py_mul q c = Ok v /\ ndp !! "cohesion" = Some v) /\
  (sc = TiModel -> quotient_of B (dp !! "U0") (sf !! "vel") (ndp !! "U")) /\
  (forall k, is_Some (ndp !! k) ->
     k ∈ (scales sc).*1 \/ k = "a" \/ k = "fa" \/
     (sc = Isotropic /\ k = "cohesion") \/ (sc = TiModel /\ k = "U")).
Proof.
  intros H. destruct sc; cbn [nondim] in H.
  - unfold nondim_isotropic in H. inv_result H. same_attr.
    split; [| split; [| split; [| split; [| split]]]].
    + cbn [scales]. repeat (apply Forall_cons; split; [solve_quotient |]).
      constructor.
    + cbn. symmetry. apply attr_ok. eassumption.
    + do 2 eexists. split; [apply attr_ok; eassumption |].
      split; [| reflexivity]. cbn [friction mbind result_bind].
      match goal with H : np_radians L _ = Ok _ |- _ => rewrite H end.
      assumption.
    + intros _. do 7 eexists.
      split; [apply attr_ok; eassumption |].
      split; [reflexivity |].
      split; [eassumption |].
      split; [apply attr_ok; eassumption |].
      split; [eassumption |].
      split; [eassumption |].
      split; [eassumption | reflexivity].
    + discriminate.
    + intros k Hk. ndp_keys Hk.
  - unfold nondim_ti_model in H. inv_result H. same_attr.
    split; [| split; [| split; [| split; [| split]]]].
    + cbn [scales]. repeat (apply Forall_cons; split; [solve_quotient |]).
      constructor.
    + cbn. symmetry. apply attr_ok. eassumption.
    + do 2 eexists. split; [apply attr_ok; eassumption |].
      split; [| reflexivity]. cbn [friction mbind result_bind].
      match goal with H : PyNum.py_mul (VFloat _) _ = Ok _ |- _ => rewrite H end.
      assumption.
    + discriminate.
    + intros _. solve_quotient.
    + intros k Hk. cbn [list_to_map foldr] in Hk. ndp_keys Hk.
Qed.


Lemma nondim_quotients_witness :
  exists sf ndp,
    nondim Reference.python2 Reference.libm Isotropic Defaults.dp_isotropic
    = Ok (sf, ndp) /\
    Forall (fun e => quotient_of Reference.python2 (Defaults.dp_isotropic !! e.1)
                       (scale_of sf Defaults.dp_isotropic e.2) (ndp !! e.1))
           (scales Isotropic).
Proof.
  let r := eval vm_compute in
             (nondim Reference.python2 Reference.libm Isotropic Defaults.dp_isotropic) in
  lazymatch r with
  | Ok (?sf, ?ndp) =>
      assert (E : nondim Reference.python2 Reference.libm Isotropic
                    Defaults.dp_isotropic = Ok (sf, ndp))
        by (vm_compute; reflexivity);
      exists sf, ndp
  end.
  split; [exact E |].
  exact (proj1 (nondim_quotients _ _ _ _ _ _ E)).
Defined.

(** Distinct binary64 numbers, by running the comparison. *)
Ltac float_absurd H :=
  lazymatch type of H with
  | _ = Ok (VFloat ?b) =>
      apply (f_equal (fun r => match r with
                               | Ok (VFloat z) => PrimFloat.eqb z b
                               | _ => false
                               end)) in H;
      vm_compute in H; discriminate H
  end.

(** C4 as worded fails on the friction angle: with the default parameters of
    isotropic.py, [ndp.fa] is not [dp.fa] divided by any entry of [sf] (nor of
    [dp]). *)
Lemma nondim_fa_counterexample :
  ~ (forall sc dp sf ndp k x y,
       nondim Reference.python2 Reference.libm sc dp = Ok (sf, ndp) ->
       dp !! k = Some x -> ndp !! k = Some y ->
       exists s,
         ((exists sk, sf !! sk = Some s) \/ (exists dk, dp !! dk = Some s)) /\
         PyOps.py_div Reference.python2 x s = Ok y).
Proof.
  intros H.
  let r := eval vm_compute in
             (nondim Reference.python2 Reference.libm Isotropic Defaults.dp_isotropic) in
  lazymatch r with
  | Ok (?sf, ?ndp) =>
      assert (E : nondim Reference.python2 Reference.libm Isotropic
                    Defaults.dp_isotropic = Ok (sf, ndp))
        by (vm_compute; reflexivity);
      let y := eval vm_compute in (ndp !! "fa") in
      lazymatch y with
      | Some ?v =>
          assert (Ey : ndp !! "fa" = Some v) by (vm_compute; reflexivity);
          assert (Ex : Defaults.dp_isotropic !! "fa" = Some (VFloat 30))
            by (vm_compute; reflexivity);
          destruct (H Isotropic _ _ _ "fa" _ _ E Ex Ey) as (s & Hsrc & Hdiv)
      end
  end.
  clear H E.
  destruct Hsrc as [[sk Hs] | [dk Hs]];
    apply elem_of_map_to_list in Hs; vm_compute in Hs;
    repeat (apply elem_of_cons in Hs as [Hs | Hs];
            [ apply (f_equal snd) in Hs; cbn [snd] in Hs; subst s;
              vm_compute in Hdiv; float_absurd Hdiv |]);
    by apply elem_of_nil in Hs.
Qed.

(** ** The Picard loop *)

Section PicardFacts.

Context {F : Type}.
Variable A : Arith F.
Variable sim : Sim F.
Variable below_tol : F -> result bool.
Variable area : F.

Lemma iteration_after (sc : script) (st : LoopState F) :
  iteration A sim sc area st =
  match solve_and_detrend A sim area (vars st) with
  | Ok mv => Ok (after A sim sc st mv, (residuals A sim sc mv).1.1)
  | Raise e => Raise e
  end.
Proof.
  unfold iteration, after, solve_and_detrend, solve_and_detrend_counting, solver_solve,
    mbind, result_bind.
  destruct (solve sim (velocityField (vars st)) (pressureField (vars st))) as [v p].
  destruct (fis_zero A area); [reflexivity |].
  cbv beta iota zeta.
  match goal with |- context [residuals A sim sc ?mv] =>
    by destruct (residuals A sim sc mv) as [[r1 r2] r3] end.
Qed.

Lemma solve_and_detrend_eq (mv : MeshVariables F) :
  solve_and_detrend A sim area mv =
  let solved := solve sim (velocityField mv) (pressureField mv) in
  let p0 := surfacePressureIntegral A sim
              {| velocityField := solved.1; pressureField := solved.2;
                 prevVelocityField := velocityField mv;
                 prevPressureField := pressureField mv |} in
  if fis_zero A area then Raise ZeroDivisionError
  else Ok {| velocityField := solved.1;
             pressureField := map (fun x => fsub A x (fdiv A p0 area)) solved.2;
             prevVelocityField := velocityField mv;
             prevPressureField := pressureField mv |}.
Proof.
  unfold solve_and_detrend, solve_and_detrend_counting, solver_solve, mbind, result_bind.
  destruct (solve sim (velocityField mv) (pressureField mv)) as [v p].
  cbv beta iota zeta. by destruct (fis_zero A area).
Qed.




Lemma rounds_history (sc : script) (k : nat) (st final : LoopState F) :
  rounds A sim sc area k st = Ok final ->
  count final = (count st + k)%nat /\
  solves final = (solves st + k)%nat /\
  length (history A sim sc area k st) = k /\
  res1Vals final = res1Vals st ++ (history A sim sc area k st).*1.*1 /\
  res2Vals final = res2Vals st ++ (history A sim sc area k st).*1.*2 /\
  res3Vals final = res3Vals st ++ (history A sim sc area k st).*2.
Proof.
  revert st. induction k as [|k IH]; intros st H.
  - cbn in H. injection H as <-. cbn. rewrite !app_nil_r. repeat split; lia.
  - cbn [rounds history] in *. rewrite iteration_after in *.
    destruct (solve_and_detrend A sim area (vars st)) as [mv|e]; [| discriminate].
    cbn [mbind result_bind] in H. apply IH in H as (Hc & Hs & Hl & H1 & H2 & H3).
    cbn [after count solves res1Vals res2Vals res3Vals vars] in *.
    rewrite Hc, Hs, H1, H2, H3. cbn [length fmap list_fmap]. rewrite Hl.
    rewrite <- !app_assoc. repeat split; lia.
Qed.






End PicardFacts.





Example toy_stops_after_two_rounds :
  (fun r => match r with Ok st => Some (count st, solves st) | Raise _ => None end)
    (picard binary64 Reference.toy
            (below_md_tol Reference.python2 Defaults.md_isotropic) Isotropic
            2%float 10 (initial binary64 Reference.toy))
  = Some (2%nat, 2%nat).
Proof. vm_compute. reflexivity. Qed.

(** ** The residuals *)

(** In isotropic.py the three residuals are the relative norms of the
    differences to the snapshots. *)
Lemma isotropic_residuals {F : Type} (A : Arith F) (sim : Sim F) (mv : MeshVariables F) :
  let dV := fn_sub2 A (fn_velocity sim) (fn_prevVelocity sim) in
  let dP := fn_sub A (fn_pressure sim) (fn_prevPressure sim) in
  let v2 := fn_dot2 A (fn_velocity sim) (fn_velocity sim) in
  let p2 := fn_dot A (fn_pressure sim) (fn_pressure sim) in
  residuals A sim Isotropic mv =
  (relative_norm A sim (fn_dot2 A dV dV) v2 mv,
   relative_norm A sim (fn_dot A dP dP) p2 mv,
   relative_norm A sim (fn_add A (fn_dot2 A dV dV) (fn_dot A dP dP)) (fn_add A v2 p2) mv).
Proof. reflexivity. Qed.

(** In ti_model.py [res2] is formed from [pressureField - pressureField]: it
    does not read the snapshot of the pressure. *)
Lemma ti_model_res2_without_snapshot {F : Type} (A : Arith F) (sim : Sim F)
    (v : list (F * F)) (p : list F) (pv : list (F * F)) (pp pp' : list F) :
  (residuals A sim TiModel
     {| velocityField := v; pressureField := p;
        prevVelocityField := pv; prevPressureField := pp |}).1.2
  = (residuals A sim TiModel
       {| velocityField := v; pressureField := p;
          prevVelocityField := pv; prevPressureField := pp' |}).1.2.
Proof. reflexivity. Qed.

(** C2 on ti_model.py, first round on the two-node mesh: the pressure moves
    from [0; 0] to [1; -1], the relative norm of that change is 1 (what
    isotropic.py records), and ti_model.py records 0. *)
Theorem ti_model_res2_is_zero :
  exists mv,
    solve_and_detrend binary64 Reference.toy 2%float
      (vars (initial binary64 Reference.toy)) = Ok mv /\
    prevPressureField mv = [0; 0]%float /\
    pressureField mv = [1; -1]%float /\
    (residuals binary64 Reference.toy Isotropic mv).1.2 = 1%float /\
    (residuals binary64 Reference.toy TiModel mv).1.2 = 0%float.
Proof. eexists. repeat split; vm_compute; reflexivity. Qed.

(** ** The pressure drift *)

Section Detrend.

Local Open Scope Q_scope.

Lemma weighted_sum_shift (rule : list (nat * Q)) (f g : nat -> Q) (c : Q) :
  Forall (fun q => g q.1 == f q.1 - c) rule ->
  foldr (fun q acc => q.2 * g q.1 + acc) 0 rule ==
  foldr (fun q acc => q.2 * f q.1 + acc) 0 rule
  - c * foldr (fun q acc => q.2 * 1 + acc) 0 rule.
Proof.
  induction 1 as [|q rule Hq _ IH]; cbn [foldr].
  - ring.
  - rewrite Hq, IH. ring.
Qed.

End Detrend.

(** Whatever the arithmetic, a round leaves the solved velocity, the solved
    pressure less [p0 / area], and the fields it started from as snapshots. *)
Lemma detrend_subtracts_drift {F : Type} (A : Arith F) (sim : Sim F) (sc : script)
    (area : F) (st st' : LoopState F) (res1 : F) :
  iteration A sim sc area st = Ok (st', res1) ->
  let solved := solve sim (velocityField (vars st)) (pressureField (vars st)) in
  let p0 := surfacePressureIntegral A sim
              {| velocityField := solved.1; pressureField := solved.2;
                 prevVelocityField := velocityField (vars st);
                 prevPressureField := pressureField (vars st) |} in
  vars st' =
  {| velocityField := solved.1;
     pressureField := map (fun x => fsub A x (fdiv A p0 area)) solved.2;
     prevVelocityField := velocityField (vars st);
     prevPressureField := pressureField (vars st) |}.
Proof.
  rewrite iteration_after, solve_and_detrend_eq. cbv zeta.
  destruct (fis_zero A area); [discriminate |].
  intros H. injection H as <- _. reflexivity.
Qed.

(** In exact arithmetic, with an interpolation that reproduces constants on
    the top wall, the surface integral of the detrended pressure is zero.
    This is what the subtraction aims at; binary64 gets there up to rounding
    only (see the counterexample below). *)
Lemma detrend_zero_in_exact_arithmetic (sq : Q -> Q) (sim : Sim Q) (sc : script)
    (st : LoopState Q) :
  let A := rational sq in
  let area := surfaceArea A sim (vars (initial A sim)) in
  let solved := solve sim (velocityField (vars st)) (pressureField (vars st)) in
  let p0 := foldr (fun q acc => q.2 * pressure_at sim solved.2 q.1 + acc)%Q 0%Q (top sim) in
  ~ (area == 0)%Q ->
  (forall c, Forall (fun q => pressure_at sim (map (fun x => x - c) solved.2) q.1
                              == pressure_at sim solved.2 q.1 - c)%Q (top sim)) ->
  area = foldr (fun q acc => q.2 * 1 + acc)%Q 0%Q (top sim) /\
  exists st' res1,
    iteration A sim sc area st = Ok (st', res1) /\
    velocityField (vars st') = solved.1 /\
    pressureField (vars st') = map (fun x => x - p0 / area)%Q solved.2 /\
    prevPressureField (vars st') = pressureField (vars st) /\
    (surfacePressureIntegral A sim (vars st') == 0)%Q.
Proof.
  intros A area solved p0 Harea Hconst. split; [reflexivity |].
  assert (Hz : fis_zero A area = false).
  { cbn. destruct (Qeq_bool area 0) eqn:E; [| reflexivity].
    apply Qeq_bool_iff in E. contradiction. }
  rewrite iteration_after, solve_and_detrend_eq. cbv zeta.
  fold solved. destruct solved as [v p] eqn:Hsolved. rewrite Hz.
  do 2 eexists. split; [reflexivity |].
  cbn [after vars velocityField pressureField prevPressureField fst snd].
  split; [reflexivity |]. split; [reflexivity |]. split; [reflexivity |].
  unfold surfacePressureIntegral, evaluate, fn_pressure.
  cbn [pressureField fadd fmul fsub fdiv fzero A rational].
  cbn [snd] in Hconst, p0.
  rewrite (weighted_sum_shift (top sim) (pressure_at sim p) _ _ (Hconst _)).
  fold p0. change (foldr (fun q acc => q.2 * 1 + acc)%Q 0%Q (top sim)) with area.
  field. exact Harea.
Qed.

(** C3, as amended.  In the arithmetic of the scripts, and in any other:
    every round, right after the linear solve, takes [p0 / area] off every
    pressure degree of freedom, [p0] being the surface integral over the top
    wall of the pressure the solver returned; the velocity is the solver's,
    the fields the round started from are the snapshots, and the residuals
    are computed on these fields.  A zero [area] makes the division raise.
    The surface integral of the detrended pressure is not stated to be zero:
    in binary64 it need not be. *)
Theorem detrend_subtracts_surface_mean {F : Type} (A : Arith F) (sim : Sim F)
    (sc : script) (area : F) (st : LoopState F) :
  let solved := solve sim (velocityField (vars st)) (pressureField (vars st)) in
  let p0 := evaluate A (top sim) (fun _ q => pressure_at sim solved.2 q)
              (vars st) in
  (fis_zero A area = true -> iteration A sim sc area st = Raise ZeroDivisionError) /\
  (fis_zero A area = false ->
   exists st',
     iteration A sim sc area st = Ok (st', (residuals A sim sc (vars st')).1.1) /\
     velocityField (vars st') = solved.1 /\
     pressureField (vars st') = map (fun x => fsub A x (fdiv A p0 area)) solved.2 /\
     prevVelocityField (vars st') = velocityField (vars st) /\
     prevPressureField (vars st') = pressureField (vars st) /\
     res1Vals st' = res1Vals st ++ [(residuals A sim sc (vars st')).1.1] /\
     res2Vals st' = res2Vals st ++ [(residuals A sim sc (vars st')).1.2] /\
     res3Vals st' = res3Vals st ++ [(residuals A sim sc (vars st')).2]).
Proof.
  intros solved p0. rewrite iteration_after, solve_and_detrend_eq. cbv zeta.
  split; intros ->; [reflexivity |].
  eexists (after A sim sc st _). split; [reflexivity |].
  cbn [after vars velocityField pressureField prevVelocityField prevPressureField
       res1Vals res2Vals res3Vals].
  repeat split; reflexivity.
Qed.

Lemma detrend_subtracts_surface_mean_witness :
  exists st',
    iteration binary64 Reference.toy Isotropic 2%float (initial binary64 Reference.toy)
    = Ok (st', (residuals binary64 Reference.toy Isotropic (vars st')).1.1) /\
    pressureField (vars st') = [1; -1]%float.
Proof.
  destruct (proj2 (detrend_subtracts_surface_mean binary64 Reference.toy Isotropic
                     2%float (initial binary64 Reference.toy)) eq_refl)
    as (st' & Hit & _ & Hp & _).
  exists st'. split; [exact Hit |]. rewrite Hp. vm_compute. reflexivity.
Defined.

(** C3 as worded fails in binary64.  On a top wall of three points of weight
    one, with nodal values and solved pressures 0.1, 0.2 and 0.4, the
    surface integral of the detrended pressure is not zero. *)
Lemma detrend_rounding_counterexample :
  ~ (forall (sim : Sim float) (sc : script) (st st' : LoopState float) (res1 : float),
       let area := surfaceArea binary64 sim (vars (initial binary64 sim)) in
       let solved := solve sim (velocityField (vars st)) (pressureField (vars st)) in
       PrimFloat.eqb area 0 = false ->
       (forall c, Forall (fun q => pressure_at sim (map (fun x => x - c)%float solved.2) q.1
                                   = (pressure_at sim solved.2 q.1 - c)%float) (top sim)) ->
       iteration binary64 sim sc area st = Ok (st', res1) ->
       PrimFloat.eqb (surfacePressureIntegral binary64 sim (vars st')) 0 = true).
Proof.
  intros H.
  destruct (iteration binary64 Reference.wall3 Isotropic
              (surfaceArea binary64 Reference.wall3 (vars (initial binary64 Reference.wall3)))
              (initial binary64 Reference.wall3)) as [[st' res1]|e] eqn:E.
  - pose proof (detrend_subtracts_drift _ _ _ _ _ _ _ E) as Hv. cbv zeta in Hv.
    assert (Hc : forall c, Forall
              (fun q => pressure_at Reference.wall3
                          (map (fun x => x - c)%float [0.1; 0.2; 0.4]%float) q.1
                        = (pressure_at Reference.wall3 [0.1; 0.2; 0.4]%float q.1 - c)%float)
              (top Reference.wall3)).
    { intros c. repeat constructor. }
    pose proof (H Reference.wall3 Isotropic (initial binary64 Reference.wall3) st' res1
                  eq_refl Hc E) as H0.
    rewrite Hv in H0. vm_compute in H0. discriminate H0.
  - vm_compute in E. discriminate E.
Qed.

(** ** The CSV files and the whole run *)

Section CsvFacts.

Lemma ends_with_slash (a : string) : PyStr.ends_with_char "/" (a +:+ "/") = true.
Proof.
  induction a as [|x a IH]; [reflexivity |].
  str_simpl. cbn [PyStr.ends_with_char].
  destruct (a +:+ "/") eqn:E; [by destruct a | exact IH].
Qed.

Lemma join_outputPath (M : string) (N : Z) (name : string) :
  Csv.join (outputPath M N) name = outputPath M N +:+ name.
Proof.
  unfold Csv.join.
  assert (E : outputPath M N = ("results/" +:+ M +:+ "/" +:+ str_of_Z N) +:+ "/").
  { unfold outputPath. str_simpl. by rewrite !app_assoc_str. }
  rewrite E at 2. rewrite ends_with_slash. reflexivity.
Qed.

Lemma open_w_lookup (path : string) (fs : gmap string Csv.file) :
  Csv.open_w path fs !! path = Some [].
Proof. apply lookup_insert_eq. Qed.

Lemma open_w_lookup_ne (path path' : string) (fs : gmap string Csv.file) :
  path' <> path -> Csv.open_w path' fs !! path = fs !! path.
Proof. intros H. by apply lookup_insert_ne. Qed.

Lemma writerow_lookup (path : string) (row : list pyval) (rows : Csv.file)
    (fs : gmap string Csv.file) :
  fs !! path = Some rows -> Csv.writerow path row fs !! path = Some (rows ++ [row]).
Proof. intros H. unfold Csv.writerow. rewrite H. apply lookup_insert_eq. Qed.

Lemma writerow_lookup_ne (path path' : string) (row : list pyval)
    (fs : gmap string Csv.file) :
  path' <> path -> Csv.writerow path' row fs !! path = fs !! path.
Proof.
  intros H. unfold Csv.writerow. destruct (fs !! path'); [| reflexivity].
  by apply lookup_insert_ne.
Qed.

(** The block of [params.csv] touches that path only. *)
Lemma write_params_other (path path' : string) (d : dicts) (ndp : gmap string pyval)
    (fs : gmap string Csv.file) :
  path <> path' -> (write_params path d ndp fs).2 !! path' = fs !! path'.
Proof.
  intros H. unfold write_params.
  destruct (Csv.row (dp d)); [| cbn [snd]; by rewrite open_w_lookup_ne].
  destruct (Csv.row ndp);
    [| cbn [snd]; by rewrite writerow_lookup_ne, open_w_lookup_ne].
  destruct (Csv.row (md d)); cbn [snd];
    by rewrite ?writerow_lookup_ne, open_w_lookup_ne.
Qed.


Lemma write_csv_solver (sc : script) (out : string) (someVals : list pyval)
    (st : LoopState float) (d : dicts) (ndp : gmap string pyval)
    (fs : gmap string Csv.file) :
  out +:+ "metrics.csv" = Csv.join out "metrics.csv" ->
  out +:+ "solver.csv" = Csv.join out "solver.csv" ->
  out +:+ "params.csv" = Csv.join out "params.csv" ->
  (write_csv sc 0 out someVals st d ndp fs).2 !! (out +:+ "solver.csv")
  = Some [VFloat <$> res1Vals st; VFloat <$> res2Vals st; VFloat <$> res3Vals st].
Proof.
  intros Hm Hs Hp. unfold write_csv. cbn [Nat.eqb]. cbv zeta.
  rewrite <- Hm, <- Hs, <- Hp.
  assert (Hne : out +:+ "params.csv" <> out +:+ "solver.csv").
  { intros H. apply (inj (String.app out)) in H. discriminate. }
  assert (Hsolver :
    Csv.writerow (out +:+ "solver.csv") (VFloat <$> res3Vals st)
      (Csv.writerow (out +:+ "solver.csv") (VFloat <$> res2Vals st)
         (Csv.writerow (out +:+ "solver.csv") (VFloat <$> res1Vals st)
            (Csv.open_w (out +:+ "solver.csv")
               (Csv.writerow (out +:+ "metrics.csv") someVals
                  (Csv.open_w (out +:+ "metrics.csv") fs)))))
    !! (out +:+ "solver.csv")
    = Some [VFloat <$> res1Vals st; VFloat <$> res2Vals st; VFloat <$> res3Vals st]).
  { apply (writerow_lookup _ _ [_; _]).
    apply (writerow_lookup _ _ [_]).
    apply (writerow_lookup _ _ []).
    apply open_w_lookup. }
  destruct sc; [| exact Hsolver].
  rewrite write_params_other by exact Hne. exact Hsolver.
Qed.

End CsvFacts.

Section RunFacts.

Context {F : Type}.
Variable A : Arith F.
Variable sim : Sim F.
Variable below_tol : F -> result bool.

(** Whatever stops the loop, its result is that of some number of whole
    rounds within the budget. *)
Lemma picard_is_rounds (sc : script) (area : F) (n : nat) (st final : LoopState F) :
  picard A sim below_tol sc area n st = Ok final ->
  exists k, (k <= n)%nat /\ rounds A sim sc area k st = Ok final.
Proof.
  revert st. induction n as [|n IH]; intros st H.
  - exists 0%nat. split; [lia | exact H].
  - cbn [picard] in H. rewrite iteration_after in H.
    destruct (solve_and_detrend A sim area (vars st)) as [mv|e] eqn:Hmv; [| discriminate].
    cbn [mbind result_bind] in H.
    destruct (below_tol (residuals A sim sc mv).1.1) as [[]|e]; [| | discriminate];
      cbn [mbind result_bind] in H.
    + exists 1%nat. split; [lia |]. cbn [rounds].
      rewrite iteration_after, Hmv. exact H.
    + destruct (IH _ H) as (k & Hk & Hr). exists (S k). split; [lia |].
      cbn [rounds]. rewrite iteration_after, Hmv. exact Hr.
Qed.

End RunFacts.

Section ScriptFacts.

Variable B : Builtins.
Variable L : MathLib.
Variable setup : script -> gmap string pyval -> gmap string pyval -> result (Sim float).
Variable metrics : script -> Sim float -> LoopState float -> result (list pyval).

Lemma loop_budget_cap (sc : script) (md : gmap string pyval) :
  loop_budget B (reassign_maxIts sc md) = Ok (cap sc).
Proof.
  unfold loop_budget, reassign_maxIts, PyOps.attr.
  rewrite lookup_insert_eq. cbn [mbind result_bind].
  destruct sc; vm_compute; reflexivity.
Qed.

(** What a finished run went through. *)
Lemma run_inv (sc : script) (rank : nat) (args : list string)
    (fs : gmap string Csv.file) (out : Outcome) :
  run B L setup metrics sc rank args fs = Ok out ->
  exists sf ndp someVals,
    (Model out, ModNum out) = model_name B args /\
    nondim B L sc (dp (override_args B args (defaults sc))) = Ok (sf, ndp) /\
    setup sc ndp (md (override_args B args (defaults sc))) = Ok (sim_used out) /\
    md (params out) = reassign_maxIts sc (md (override_args B args (defaults sc))) /\
    picard binary64 (sim_used out) (below_md_tol B (md (params out))) sc
           (surfaceArea binary64 (sim_used out) (vars (initial binary64 (sim_used out))))
           (cap sc) (initial binary64 (sim_used out)) = Ok (final out) /\
    write_csv sc rank (outputPath (Model out) (ModNum out)) someVals
              (final out) (params out) ndp fs = (Ok tt, files out).
Proof.
  unfold run. destruct (model_name B args) as [M N].
  destruct (nondim B L sc _) as [[sf ndp]|e] eqn:Hn; [| discriminate].
  cbn [mbind result_bind].
  destruct (setup sc ndp _) as [sim|e] eqn:Hs; [| discriminate].
  cbn [mbind result_bind md]. rewrite loop_budget_cap. cbn [mbind result_bind].
  destruct (picard _ _ _ _ _ _ _) as [st|e] eqn:Hp; [| discriminate].
  cbn [mbind result_bind].
  destruct (metrics sc sim st) as [someVals|e]; [| discriminate].
  cbn [mbind result_bind].
  destruct (write_csv sc rank (outputPath M N) someVals st _ ndp fs)
    as [[[]|e] fs'] eqn:Hw; [| discriminate].
  cbn [mbind result_bind]. intros H. injection H as <-.
  exists sf, ndp, someVals. cbn. repeat split; assumption.
Qed.

End ScriptFacts.

(** C8.  After a run, [solver.csv] under [results/<Model>/<ModNum>/] holds
    three rows, the histories of [res1], [res2] and [res3] in that order, each
    with one entry per round of the Picard loop, in the order of the rounds. *)
Theorem solver_csv_rows (B : Builtins) (L : MathLib)
    (setup : script -> gmap string pyval -> gmap string pyval -> result (Sim float))
    (metrics : script -> Sim float -> LoopState float -> result (list pyval))
    (sc : script) (args : list string) (fs : gmap string Csv.file) (out : Outcome) :
  run B L setup metrics sc 0 args fs = Ok out ->
  let st := final out in
  let sim := sim_used out in
  let hist := history binary64 sim sc
                (surfaceArea binary64 sim (vars (initial binary64 sim)))
                (count st) (initial binary64 sim) in
  (Model out, ModNum out) = model_name B args /\
  files out !! (outputPath (Model out) (ModNum out) +:+ "solver.csv")
  = Some [VFloat <$> res1Vals st; VFloat <$> res2Vals st; VFloat <$> res3Vals st] /\
  length hist = count st /\
  res1Vals st = hist.*1.*1 /\ res2Vals st = hist.*1.*2 /\ res3Vals st = hist.*2.
Proof.
  intros H st sim hist.
  destruct (run_inv B L setup metrics sc 0 args fs out H)
    as (sf & ndp & someVals & HM & _ & _ & _ & Hp & Hf).
  split; [exact HM |]. split.
  - change (files out) with (Ok tt, files out).2. rewrite <- Hf.
    apply write_csv_solver; symmetry; apply join_outputPath.
  - destruct (picard_is_rounds _ _ _ _ _ _ _ _ Hp) as (k & _ & Hr).
    destruct (rounds_history _ _ _ _ _ _ _ Hr) as (Hc & _ & Hl & H1 & H2 & H3).
    cbn [initial count res1Vals res2Vals res3Vals app] in Hc, H1, H2, H3.
    subst hist st sim. rewrite Hc. auto.
Qed.

(** C9.  The reassignment right before the loop fixes the budget of the
    [for] statement at 10 rounds in isotropic.py and 4 in ti_model.py,
    whatever [md.maxIts] held; no run goes through more rounds, or calls the
    solver more often, than that. *)
Theorem picard_iteration_cap (B : Builtins) (L : MathLib)
    (setup : script -> gmap string pyval -> gmap string pyval -> result (Sim float))
    (metrics : script -> Sim float -> LoopState float -> result (list pyval))
    (sc : script) :
  (forall md, loop_budget B (reassign_maxIts sc md)
              = Ok (match sc with Isotropic => 10 | TiModel => 4 end)%nat) /\
  (forall rank args fs out,
     run B L setup metrics sc rank args fs = Ok out ->
     (count (final out) <= match sc with Isotropic => 10 | TiModel => 4 end)%nat /\
     (solves (final out) <= match sc with Isotropic => 10 | TiModel => 4 end)%nat).
Proof.
  split; [apply loop_budget_cap |].
  intros rank args fs out H.
  destruct (run_inv B L setup metrics sc rank args fs out H)
    as (sf & ndp & someVals & _ & _ & _ & _ & Hp & _).
  destruct (picard_is_rounds _ _ _ _ _ _ _ _ Hp) as (k & Hk & Hr).
  destruct (rounds_history _ _ _ _ _ _ _ Hr) as (Hc & Hs & _).
  cbn [initial count solves] in Hc, Hs. unfold cap in Hk. lia.
Qed.

Example outputPath_default : outputPath "T" 0 +:+ "solver.csv" = "results/T/0/solver.csv".
Proof. reflexivity. Qed.

Example outputPath_negative : outputPath "B" (-7) = "results/B/-7/".
Proof. reflexivity. Qed.

Lemma solver_csv_rows_witness :
  exists out,
    run Reference.python2 Reference.libm (fun _ _ _ => Ok Reference.toy)
        (fun _ _ _ => Ok []) TiModel 0 ["B"; "7"; "md.tol=0.5"] ∅ = Ok out /\
    files out !! "results/B/7/solver.csv"
    = Some [VFloat <$> res1Vals (final out); VFloat <$> res2Vals (final out);
            VFloat <$> res3Vals (final out)] /\
    length (res1Vals (final out)) = count (final out).
Proof.
  destruct (run Reference.python2 Reference.libm (fun _ _ _ => Ok Reference.toy)
                (fun _ _ _ => Ok []) TiModel 0 ["B"; "7"; "md.tol=0.5"] ∅)
    as [out|e] eqn:E.
  - exists out. split; [reflexivity |].
    destruct (solver_csv_rows _ _ _ _ _ _ _ _ E) as (HM & Hf & Hl & H1 & _).
    change (model_name Reference.python2 ["B"; "7"; "md.tol=0.5"]) with ("B", 7) in HM.
    injection HM as HM1 HM2. rewrite HM1, HM2 in Hf. split; [exact Hf |].
    rewrite H1, !length_fmap. exact Hl.
  - vm_compute in E. discriminate E.
Defined.

Lemma picard_iteration_cap_witness :
  exists out,
    run Reference.python2 Reference.libm (fun _ _ _ => Ok Reference.toy)
        (fun _ _ _ => Ok []) Isotropic 0 ["md.maxIts=500"; "md.tol=0"] ∅ = Ok out /\
    (count (final out) <= 10)%nat.
Proof.
  destruct (run Reference.python2 Reference.libm (fun _ _ _ => Ok Reference.toy)
                (fun _ _ _ => Ok []) Isotropic 0 ["md.maxIts=500"; "md.tol=0"] ∅)
    as [out|e] eqn:E.
  - exists out. split; [reflexivity |].
    exact (proj1 (proj2 (picard_iteration_cap _ _ _ _ Isotropic) _ _ _ _ E)).
  - vm_compute in E. discriminate E.
Defined.

Example cap_is_reached :
  (fun r => match r with Ok out => Some (count (final out)) | Raise _ => None end)
    (run Reference.python2 Reference.libm (fun _ _ _ => Ok Reference.toy)
         (fun _ _ _ => Ok []) Isotropic 0 ["md.maxIts=500"; "md.tol=0"] ∅)
  = Some 10%nat.
Proof. vm_compute. reflexivity. Qed.

(** * Further properties *)

(** ** The override loop, token by token *)

Section OverrideFrame.

Import PyStr.

Variable B : Builtins.

Lemma contains_char (c : ascii) (s : string) :
  contains (String c "") s = has_char c s.
Proof.
  induction s as [|x s IH]; [reflexivity |].
  cbn [contains has_char]. rewrite prefix_char, IH.
  by destruct (Ascii.eqb c x).
Qed.

(** What one [if farg.startswith(name)] statement can do. *)
Lemma update_effect d name farg arg v s r s' :
  update d name farg arg v s = (r, s') ->
  s' = s \/
  (startswith name farg = true /\
   exists w, s' = upd d <[arg := w]> s /\
     (w = v \/ exists old, sel d s !! arg = Some old /\ PyNum.py_mul old v = Ok w)).
Proof.
  unfold update, mbind, M_bind, lift, getitem, setitem, mret, M_ret.
  destruct (startswith name farg); [| intros [= _ <-]; by left].
  destruct (contains "*=" farg).
  - destruct (sel d s !! arg) as [old|] eqn:Hold; [| intros [= _ <-]; by left].
    destruct (PyNum.py_mul old v) as [w|e] eqn:Hmul; [| intros [= _ <-]; by left].
    destruct (refused arg); intros [= _ <-]; [by left |].
    right. split; [reflexivity |]. exists w. split; [reflexivity |]. right. eauto.
  - destruct (refused arg); intros [= _ <-]; [by left |].
    right. split; [reflexivity |]. exists v. by split; [| left].
Qed.

Lemma override_token_cases (farg : string) (s : dicts) :
  override_token B farg s = s \/
  exists d arg val w,
    startswith (name_of d) farg = true /\
    parse_token farg = Ok (arg, val) /\
    (w = convert B val \/
     exists old, sel d s !! arg = Some old /\ PyNum.py_mul old (convert B val) = Ok w) /\
    override_token B farg s = upd d <[arg := w]> s.
Proof.
  unfold override_token. rewrite try_body_parse.
  destruct (parse_token farg) as [[arg val]|e] eqn:Hp; [| by left].
  unfold mbind, M_bind.
  destruct (update DP "dp" farg arg (convert B val) s) as [r1 s1] eqn:H1.
  destruct (update_effect _ _ _ _ _ _ _ _ H1) as [-> | (Hst & w & -> & Hw)].
  - destruct r1 as [[]|e]; [| by left].
    destruct (update MD "md" farg arg (convert B val) s) as [r2 s2] eqn:H2.
    destruct (update_effect _ _ _ _ _ _ _ _ H2) as [-> | (Hst & w & -> & Hw)];
      [by left |].
    right. exists MD, arg, val, w. done.
  - right. exists DP, arg, val, w.
    split; [exact Hst |]. split; [reflexivity |]. split; [exact Hw |].
    destruct r1 as [[]|e]; [| reflexivity].
    by rewrite update_skip by (by apply startswith_dp_md).
Qed.

Lemma override_token_assign_parsed (d : dictname) (farg arg val : string) (s : dicts) :
  contains "*=" farg = false ->
  parse_token farg = Ok (arg, val) ->
  startswith (name_of d) farg = true ->
  override_token B farg s
  = match refused arg with
    | Some _ => s
    | None => upd d <[arg := convert B val]> s
    end.
Proof.
  intros Hc Hp Hst. unfold override_token. rewrite try_body_parse, Hp.
  destruct (refused arg) as [e|] eqn:Hr.
  - erewrite updates_one_raise; [reflexivity | exact Hst |].
    by apply update_refused.
  - erewrite updates_one; [reflexivity | exact Hst |].
    by apply update_assign.
Qed.

Lemma upd_dom_mono d k w s d' :
  dom (sel d' s) ⊆ dom (sel d' (upd d <[k := w]> s)).
Proof. destruct d, d'; cbn; rewrite ?dom_insert; set_solver. Qed.

Lemma override_token_dom farg s d :
  dom (sel d s) ⊆ dom (sel d (override_token B farg s)).
Proof.
  destruct (override_token_cases farg s) as [-> | (d0 & arg & val & w & _ & _ & _ & ->)];
    [done | apply upd_dom_mono].
Qed.

End OverrideFrame.


(** X2.  The override loop never removes a key: whatever the arguments, every
    key of [dp] and of [md] is still there after the loop, so the entries the
    scripts set by default can always be read back. *)
Theorem override_never_removes_keys (B : Builtins) (args : list string)
    (s : dicts) (d : dictname) :
  dom (sel d s) ⊆ dom (sel d (override_args B args s)).
Proof.
  unfold override_args. revert s. induction args as [|a args IH]; intros s; [done |].
  cbn [foldl]. etrans; [apply (override_token_dom B a) | apply IH].
Qed.

(** X3.  Two assignments [=] that parse.  On the same entry of the same
    dictionary the later one wins and the earlier one leaves no trace; on
    different entries their order is immaterial. *)
Theorem override_assignment_order (B : Builtins) (d1 d2 : dictname)
    (t1 t2 k1 k2 v1 v2 : string) (s : dicts) :
  PyStr.contains "*=" t1 = false -> PyStr.contains "*=" t2 = false ->
  parse_token t1 = Ok (k1, v1) -> parse_token t2 = Ok (k2, v2) ->
  PyStr.startswith (name_of d1) t1 = true ->
  PyStr.startswith (name_of d2) t2 = true ->
  (d1 = d2 -> k1 = k2 -> override_args B [t1; t2] s = override_args B [t2] s) /\
  (d1 <> d2 \/ k1 <> k2 -> override_args B [t1; t2] s = override_args B [t2; t1] s).
Proof.
  intros Hc1 Hc2 Hp1 Hp2 Hs1 Hs2. unfold override_args. cbn [foldl].
  rewrite !(override_token_assign_parsed B d1 t1 k1 v1) by assumption.
  rewrite !(override_token_assign_parsed B d2 t2 k2 v2) by assumption.
  split.
  - intros <- <-. destruct (refused k1); [reflexivity |].
    destruct d1; cbn; by rewrite insert_insert_eq.
  - intros Hne. destruct (refused k1), (refused k2); try reflexivity.
    destruct d1, d2; cbn; try reflexivity;
      destruct Hne as [Hne | Hne]; try done; by rewrite insert_insert_ne.
Qed.

Lemma override_assignment_order_witness :
  override_args Reference.python2 ["dp.fa=10"; "dp.fa=20"] (defaults Isotropic)
  = override_args Reference.python2 ["dp.fa=20"] (defaults Isotropic) /\
  override_args Reference.python2 ["dp.fa=10"; "md.res=64"] (defaults Isotropic)
  = override_args Reference.python2 ["md.res=64"; "dp.fa=10"] (defaults Isotropic).
Proof.
  split.
  - apply (proj1 (override_assignment_order Reference.python2 DP DP
                    "dp.fa=10" "dp.fa=20" "fa" "fa" "10" "20" (defaults Isotropic)
                    eq_refl eq_refl eq_refl eq_refl eq_refl eq_refl)); reflexivity.
  - apply (proj2 (override_assignment_order Reference.python2 DP MD
                    "dp.fa=10" "md.res=64" "fa" "res" "10" "64" (defaults Isotropic)
                    eq_refl eq_refl eq_refl eq_refl eq_refl eq_refl)).
    left. discriminate.
Defined.

(** X4.  The model-name block and the override loop share [sys.argv] without
    sharing an argument: a token either leaves [Model] and [ModNum] alone or
    leaves the dictionaries alone.  The block sees only the arguments without
    ['='], the loop only those with one. *)
Theorem argv_passes_disjoint (B : Builtins) (args : list string)
    (st : string * Z) (s : dicts) :
  (forall farg, model_step B st farg = st \/ override_token B farg s = s) /\
  foldl (model_step B) st args = foldl (model_step B) st (positional args) /\
  override_args B args s
  = override_args B (List.filter (fun farg => PyStr.contains "=" farg) args) s.
Proof.
  split; [| split].
  - intros farg. destruct st as [Model ModNum]. rewrite model_step_eq.
    destruct (PyStr.contains "=" farg) eqn:E; [by left | right].
    rewrite contains_char in E. unfold override_token.
    by rewrite no_equals_raises.
  - destruct st as [Model ModNum]. rewrite !model_fold.
    assert (Hpp : positional (positional args) = positional args).
    { induction args as [|a args IH]; [reflexivity |].
      rewrite positional_cons. destruct (PyStr.contains "=" a) eqn:E; cbn [negb]; [exact IH |].
      rewrite positional_cons, E. cbn [negb]. by rewrite IH. }
    by rewrite Hpp.
  - unfold override_args. revert s. induction args as [|a args IH]; intros s; [reflexivity |].
    rewrite filter_cons_bool. cbn [foldl].
    destruct (PyStr.contains "=" a) eqn:E.
    + cbn [foldl]. apply IH.
    + rewrite contains_char in E. unfold override_token at 2.
      rewrite no_equals_raises by exact E. apply IH.
Qed.

(** ** The output directory and the CSV files *)

Section CsvMore.

Lemma uint_no_char (c : ascii) (d : Decimal.uint) :
  (c =? "0")%char = false -> (c =? "1")%char = false -> (c =? "2")%char = false ->
  (c =? "3")%char = false -> (c =? "4")%char = false -> (c =? "5")%char = false ->
  (c =? "6")%char = false -> (c =? "7")%char = false -> (c =? "8")%char = false ->
  (c =? "9")%char = false ->
  PyStr.has_char c (DecimalString.NilEmpty.string_of_uint d) = false.
Proof.
  intros H0 H1 H2 H3 H4 H5 H6 H7 H8 H9.
  induction d; cbn [DecimalString.NilEmpty.string_of_uint PyStr.has_char];
    rewrite ?H0, ?H1, ?H2, ?H3, ?H4, ?H5, ?H6, ?H7, ?H8, ?H9; auto.
Qed.

(** The text of a number holds nothing but digits and a sign. *)
Lemma str_of_Z_no_char (c : ascii) (n : Z) :
  c = "/"%char \/ c = "."%char -> PyStr.has_char c (str_of_Z n) = false.
Proof.
  intros Hc. unfold str_of_Z, DecimalString.NilZero.string_of_int.
  assert (H : forall d, PyStr.has_char c (DecimalString.NilZero.string_of_uint d) = false).
  { intros d. destruct d; try (apply uint_no_char; by destruct Hc as [-> | ->]).
    by destruct Hc as [-> | ->]. }
  destruct (Z.to_int n); cbn [PyStr.has_char]; [apply H |].
  replace (Ascii.eqb c "-") with false by (by destruct Hc as [-> | ->]).
  apply H.
Qed.

Lemma str_of_Z_no_slash (n : Z) : PyStr.has_char "/" (str_of_Z n) = false.
Proof. apply str_of_Z_no_char. by left. Qed.

Lemma str_of_Z_nonempty (n : Z) : str_of_Z n <> "".
Proof.
  unfold str_of_Z, DecimalString.NilZero.string_of_int.
  assert (H : forall d, DecimalString.NilZero.string_of_uint d <> "").
  { intros d. by destruct d. }
  destruct (Z.to_int n); [apply H | discriminate].
Qed.

Lemma to_int_nonnil (n : Z) : Z.to_int n <> Decimal.Pos Decimal.Nil /\ Z.to_int n <> Decimal.Neg Decimal.Nil.
Proof.
  destruct n as [|p|p]; cbn; split; try discriminate; intros [= H];
    by apply DecimalPos.Unsigned.to_uint_nonnil in H.
Qed.

Lemma str_of_Z_inj (n n' : Z) : str_of_Z n = str_of_Z n' -> n = n'.
Proof.
  unfold str_of_Z. intros H.
  apply (f_equal DecimalString.NilZero.int_of_string) in H.
  destruct (to_int_nonnil n), (to_int_nonnil n').
  rewrite !DecimalString.NilZero.isi in H by assumption.
  injection H as H. by apply DecimalZ.to_int_inj.
Qed.

Lemma outputPath_shape (M : string) (N : Z) :
  outputPath M N = "results" +:+ String "/" (M +:+ String "/" (str_of_Z N +:+ String "/" "")).
Proof. reflexivity. Qed.

(** A plain name is one step of the walk. *)
Lemma step_plain (walked : list string) (name : string) :
  Path.plain_name name = true -> Path.step walked name = name :: walked.
Proof.
  unfold Path.plain_name, Path.step. intros H.
  repeat (apply andb_true_iff in H as [H ?]).
  by repeat (destruct (String.eqb name _); [discriminate |]).
Qed.

Lemma plain_no_slash (name : string) :
  Path.plain_name name = true -> PyStr.has_char "/" name = false.
Proof.
  unfold Path.plain_name. intros H. apply andb_true_iff in H as [_ H].
  by apply negb_true_iff.
Qed.

Lemma str_of_Z_plain (n : Z) : Path.plain_name (str_of_Z n) = true.
Proof.
  unfold Path.plain_name. rewrite str_of_Z_no_slash.
  pose proof (str_of_Z_nonempty n) as Hn.
  pose proof (str_of_Z_no_char "." n (or_intror eq_refl)) as Hd.
  destruct (String.eqb_spec (str_of_Z n) "") as [E|_]; [done |].
  destruct (String.eqb_spec (str_of_Z n) ".") as [E|_]; [by rewrite E in Hd |].
  destruct (String.eqb_spec (str_of_Z n) "..") as [E|_]; [by rewrite E in Hd |].
  reflexivity.
Qed.

(** The walk of [outputPath] for a model name without a slash. *)
Lemma outputPath_split (M : string) (N : Z) :
  PyStr.has_char "/" M = false ->
  PyStr.split "/" (outputPath M N) = ["results"; M; str_of_Z N; ""].
Proof.
  intros HM. rewrite outputPath_shape. unfold PyStr.split.
  rewrite split_aux_char_first by reflexivity.
  rewrite split_aux_char_first by exact HM.
  rewrite split_aux_char_first by apply str_of_Z_no_slash.
  reflexivity.
Qed.

Lemma outputPath_components (M : string) (N : Z) :
  Path.plain_name M = true ->
  Path.components (outputPath M N) = ["results"; M; str_of_Z N].
Proof.
  intros HM. unfold Path.components.
  rewrite outputPath_split by (by apply plain_no_slash).
  cbn [foldl]. change (Path.step [] "results") with ["results"].
  rewrite (step_plain _ M) by exact HM.
  rewrite (step_plain _ (str_of_Z N)) by apply str_of_Z_plain.
  reflexivity.
Qed.

End CsvMore.

(** X5.  The output directory, read as the names its path walks through.  For
    a model name that is one step of a path (not empty, not [.] or [..], no
    slash) these are [results], the model name and the number, so two runs
    with such names write to the same directory only when they agree on both
    [Model] and [ModNum].  Other model names are outside this: [a] and [a/]
    give two texts for one directory. *)
Theorem outputPath_same_directory (M M' : string) (N N' : Z) :
  (Path.plain_name M = true ->
   Path.components (outputPath M N) = ["results"; M; str_of_Z N]) /\
  (Path.plain_name M = true -> Path.plain_name M' = true ->
   Path.components (outputPath M N) = Path.components (outputPath M' N') ->
   M = M' /\ N = N') /\
  outputPath "a" N <> outputPath "a/" N /\
  Path.components (outputPath "a" N) = Path.components (outputPath "a/" N).
Proof.
  split; [apply outputPath_components |]. split; [| split].
  - intros HM HM'. rewrite !outputPath_components by assumption.
    intros [= -> H]. split; [reflexivity | by apply str_of_Z_inj].
  - rewrite !outputPath_shape. str_simpl. intros [= H].
    apply (f_equal String.length) in H. cbn [String.length] in H.
    destruct (str_of_Z N +:+ "/"); cbn in H; [discriminate | lia].
  - rewrite outputPath_components by reflexivity.
    unfold Path.components. rewrite outputPath_shape. unfold PyStr.split.
    rewrite split_aux_char_first by reflexivity.
    change ("a/" +:+ String "/" (str_of_Z N +:+ "/"))
      with ("a" +:+ String "/" ("" +:+ String "/" (str_of_Z N +:+ String "/" ""))).
    rewrite split_aux_char_first by reflexivity.
    rewrite split_aux_char_first by reflexivity.
    rewrite split_aux_char_first by apply str_of_Z_no_slash.
    cbn [foldl PyStr.split_aux]. change (Path.step [] "results") with ["results"].
    change (Path.step ["results"] ("" +:+ "a")) with ["a"; "results"].
    change (Path.step ["a"; "results"] ("" +:+ "")) with ["a"; "results"].
    rewrite (step_plain _ ("" +:+ str_of_Z N)) by apply str_of_Z_plain.
    reflexivity.
Qed.

Lemma outputPath_same_directory_witness :
  Path.components (outputPath "T" 12) = ["results"; "T"; "12"] /\
  (Path.components (outputPath "T" 12) = Path.components (outputPath "T" 12) ->
   ("T" : string) = "T" /\ (12 : Z) = 12).
Proof.
  destruct (outputPath_same_directory "T" "T" 12 12) as (Hc & Hi & _).
  split; [exact (Hc eq_refl) | exact (Hi eq_refl eq_refl)].
Defined.

Section CsvRows.




(** The keys of a dictionary in ascending order. *)
Lemma sorted_keys_spec (d : gmap string pyval) :
  let keys := merge_sort String.le (map_to_list d).*1 in
  StronglySorted String.le keys /\ NoDup keys /\
  (forall k, k ∈ keys <-> k ∈ dom d).
Proof.
  intros keys. split; [apply StronglySorted_merge_sort; apply _ |].
  assert (Hp : keys ≡ₚ (map_to_list d).*1) by apply merge_sort_Permutation.
  split.
  - rewrite Hp. apply NoDup_fst_map_to_list.
  - intros k. rewrite Hp, elem_of_dom. rewrite list_elem_of_fmap. split.
    + intros ([k' v] & -> & Hin). apply elem_of_map_to_list in Hin. by exists v.
    + intros [v Hv]. exists (k, v). split; [reflexivity | by apply elem_of_map_to_list].
Qed.

Lemma sorted_keys_dom (d d' : gmap string pyval) :
  dom d = dom d' ->
  merge_sort String.le (map_to_list d).*1 = merge_sort String.le (map_to_list d').*1.
Proof.
  intros Hd.
  destruct (sorted_keys_spec d) as (Hs & Hn & Hk).
  destruct (sorted_keys_spec d') as (Hs' & Hn' & Hk').
  apply (StronglySorted_unique String.le); [exact Hs | exact Hs' |].
  apply NoDup_Permutation; [exact Hn | exact Hn' |].
  intros k. by rewrite Hk, Hk', Hd.
Qed.

Lemma omap_lookup_keys (d : gmap string pyval) (keys : list string) :
  (forall k, k ∈ keys -> k ∈ dom d) ->
  Forall2 (fun k v => d !! k = Some v) keys (omap (fun k => d !! k) keys).
Proof.
  induction keys as [|k keys IH]; intros H; [constructor |].
  rewrite omap_cons_eq.
  destruct (d !! k) as [v|] eqn:E.
  - constructor; [exact E |]. apply IH. intros k' Hk'. apply H. by right.
  - exfalso. assert (Hin : k ∈ dom d) by (apply H; by left).
    apply elem_of_dom in Hin as [v Hv]. congruence.
Qed.

Lemma sorted_values_keys (d : gmap string pyval) :
  Forall2 (fun k v => d !! k = Some v)
          (merge_sort String.le (map_to_list d).*1) (Csv.sorted_values d).
Proof.
  apply omap_lookup_keys. intros k Hk. by apply (sorted_keys_spec d).
Qed.

End CsvRows.


(** X7.  A row of [params.csv]: the values of the dictionary, one per key, in
    the ascending order of its keys, each key once. *)
Theorem params_row_sorted_keys (d : gmap string pyval) :
  exists keys,
    StronglySorted String.le keys /\ NoDup keys /\
    (forall k, k ∈ keys <-> k ∈ dom d) /\
    Forall2 (fun k v => d !! k = Some v) keys (Csv.sorted_values d) /\
    length (Csv.sorted_values d) = size d.
Proof.
  exists (merge_sort String.le (map_to_list d).*1).
  destruct (sorted_keys_spec d) as (Hs & Hn & Hk).
  split; [exact Hs |]. split; [exact Hn |]. split; [exact Hk |].
  split; [apply sorted_values_keys |].
  rewrite <- (Forall2_length _ _ _ (sorted_values_keys d)).
  rewrite merge_sort_Permutation, length_fmap. apply length_map_to_list.
Qed.

Lemma nondim_isotropic_dom (B : Builtins) (L : MathLib) (dp sf ndp : gmap string pyval) :
  nondim B L Isotropic dp = Ok (sf, ndp) -> dom ndp = dom Defaults.dp_isotropic.
Proof.
  intros H. cbn [nondim] in H. unfold nondim_isotropic in H. inv_result H.
  injection H as _ <-.
  unfold Defaults.dp_isotropic. cbv zeta.
  rewrite !dom_insert_L, !dom_empty_L.
  set_solver.
Qed.

Lemma sorted_values_length (d : gmap string pyval) :
  length (Csv.sorted_values d) = size d.
Proof.
  rewrite <- (Forall2_length _ _ _ (sorted_values_keys d)).
  rewrite merge_sort_Permutation, length_fmap. apply length_map_to_list.
Qed.

(** X8.  The columns of [params.csv] in isotropic.py.  [ndp] has the thirteen
    keys that [dp] has by default, so its row has thirteen cells; when the
    command line added no key to [dp], the rows of [dp] and [ndp] line up:
    cell by cell they belong to the same key. *)
Theorem params_csv_columns (B : Builtins) (L : MathLib) (dp sf ndp : gmap string pyval) :
  nondim B L Isotropic dp = Ok (sf, ndp) ->
  dom ndp = dom Defaults.dp_isotropic /\
  length (Csv.sorted_values ndp) = 13%nat /\
  (dom dp = dom Defaults.dp_isotropic ->
   exists keys,
     Forall2 (fun k v => dp !! k = Some v) keys (Csv.sorted_values dp) /\
     Forall2 (fun k v => ndp !! k = Some v) keys (Csv.sorted_values ndp)).
Proof.
  intros H. pose proof (nondim_isotropic_dom B L dp sf ndp H) as Hdom.
  split; [exact Hdom |]. split.
  - rewrite sorted_values_length, <- size_dom, Hdom, size_dom. vm_compute; reflexivity.
  - intros Hdp. exists (merge_sort String.le (map_to_list dp).*1).
    split; [apply sorted_values_keys |].
    rewrite (sorted_keys_dom dp ndp) by (by rewrite Hdp, Hdom). apply sorted_values_keys.
Qed.

Lemma params_csv_columns_witness :
  exists sf ndp,
    nondim Reference.python2 Reference.libm Isotropic Defaults.dp_isotropic = Ok (sf, ndp) /\
    length (Csv.sorted_values ndp) = 13%nat.
Proof.
  assert (Hok : match nondim Reference.python2 Reference.libm Isotropic
                        Defaults.dp_isotropic with
                | Ok _ => True
                | Raise _ => False
                end) by (vm_compute; exact I).
  destruct (nondim Reference.python2 Reference.libm Isotropic Defaults.dp_isotropic)
    as [[sf ndp]|e] eqn:E; [| destruct Hok].
  exists sf, ndp. split; [reflexivity |].
  exact (proj1 (proj2 (params_csv_columns _ _ _ _ _ E))).
Defined.

(** ** A tolerance that is never met *)

Section NeverBelow.

(** An absolute value is below no number that is not above zero. *)
Lemma abs_not_below (x tol : float) :
  PrimFloat.ltb 0 tol = false -> PrimFloat.ltb (PrimFloat.abs x) tol = false.
Proof.
  rewrite !ltb_spec, abs_spec.
  change (Prim2SF 0) with (S754_zero false).
  destruct (Prim2SF x) as [s|s| |s m e], (Prim2SF tol) as [s'|s'| |s' m' e'];
    try destruct s'; try discriminate; reflexivity.
Qed.

Lemma abs_not_below_Z (x : float) (z : Z) :
  z <= 0 -> PyCmp.lt_float_Z (PrimFloat.abs x) z = false.
Proof.
  intros Hz. unfold PyCmp.lt_float_Z. rewrite abs_spec.
  destruct (Prim2SF x) as [s|s| |s m e]; cbn [SFabs]; try reflexivity.
  - apply Z.ltb_ge. exact Hz.
  - destruct (e <? 0) eqn:He; apply Z.ltb_ge.
    + apply Z.ltb_lt in He.
      assert (0 < 2 ^ (- e)) by (apply Z.pow_pos_nonneg; lia). nia.
    + apply Z.ltb_ge in He.
      assert (0 < 2 ^ e) by (apply Z.pow_pos_nonneg; lia). nia.
Qed.

(** A value of [md.tol] that no residual is below. *)
Lemma never_below_md_tol (B : Builtins) (md : gmap string pyval) (tol : pyval) (x : float) :
  md !! "tol" = Some tol ->
  (exists t, tol = VFloat t /\ PrimFloat.ltb 0 t = false) \/
  (exists z, tol = VInt z /\ z <= 0) \/ tol = VBool false ->
  below_md_tol B md (PrimFloat.abs x) = Ok false.
Proof.
  intros Hmd Htol. unfold below_md_tol, PyOps.attr. rewrite Hmd.
  cbn [mbind result_bind].
  destruct Htol as [(t & -> & Ht) | [(z & -> & Hz) | ->]]; cbn [PyCmp.lt_float].
  - by rewrite abs_not_below.
  - by rewrite abs_not_below_Z.
  - by rewrite abs_not_below_Z.
Qed.

Lemma res1_is_abs (sim : Sim float) (sc : script) (mv : MeshVariables float) :
  exists x, (residuals binary64 sim sc mv).1.1 = PrimFloat.abs x.
Proof. eexists. destruct sc; reflexivity. Qed.

Lemma picard_never_below (B : Builtins) (sim : Sim float) (sc : script) (area : float)
    (md : gmap string pyval) (tol : pyval) (n : nat) (st : LoopState float) :
  md !! "tol" = Some tol ->
  (exists t, tol = VFloat t /\ PrimFloat.ltb 0 t = false) \/
  (exists z, tol = VInt z /\ z <= 0) \/ tol = VBool false ->
  picard binary64 sim (below_md_tol B md) sc area n st
  = rounds binary64 sim sc area n st.
Proof.
  intros Hmd Htol. revert st. induction n as [|n IH]; intros st; [reflexivity |].
  cbn [picard rounds]. rewrite iteration_after.
  destruct (solve_and_detrend binary64 sim area (vars st)) as [mv|e]; [| reflexivity].
  cbn [mbind result_bind].
  destruct (res1_is_abs sim sc mv) as [x ->].
  rewrite (never_below_md_tol B md tol x Hmd Htol). cbn [mbind result_bind].
  apply IH.
Qed.

End NeverBelow.

(** X9.  A tolerance that cannot be met.  When [md.tol] is a float that is
    not above zero (zero, negative or NaN), an int that is not above zero, or
    [False], no residual is below it, and a run that ends goes through the
    whole budget: 10 rounds in isotropic.py, 4 in ti_model.py. *)
Theorem nonpositive_tol_runs_all_rounds (B : Builtins) (L : MathLib)
    (setup : script -> gmap string pyval -> gmap string pyval -> result (Sim float))
    (metrics : script -> Sim float -> LoopState float -> result (list pyval))
    (sc : script) (rank : nat) (args : list string) (fs : gmap string Csv.file)
    (out : Outcome) (tol : pyval) :
  run B L setup metrics sc rank args fs = Ok out ->
  md (override_args B args (defaults sc)) !! "tol" = Some tol ->
  (exists t, tol = VFloat t /\ PrimFloat.ltb 0 t = false) \/
  (exists z, tol = VInt z /\ z <= 0) \/ tol = VBool false ->
  count (final out) = cap sc /\ solves (final out) = cap sc /\
  length (res1Vals (final out)) = cap sc.
Proof.
  intros Hrun Hmd Htol.
  destruct (run_inv B L setup metrics sc rank args fs out Hrun)
    as (sf & ndp & someVals & _ & _ & _ & Hp & Hpic & _).
  rewrite (picard_never_below B _ sc _ _ tol) in Hpic; [| | exact Htol].
  - destruct (rounds_history _ _ _ _ _ _ _ Hpic) as (Hc & Hs & Hl & H1 & _).
    cbn [initial count solves res1Vals app] in Hc, Hs, H1.
    rewrite Hc, Hs, H1, !length_fmap, Hl. done.
  - rewrite Hp. unfold reassign_maxIts. by rewrite lookup_insert_ne.
Qed.

Lemma nonpositive_tol_runs_all_rounds_witness :
  exists out,
    run Reference.python2 Reference.libm (fun _ _ _ => Ok Reference.toy)
        (fun _ _ _ => Ok []) TiModel 0 ["md.tol=-1"] ∅ = Ok out /\
    count (final out) = 4%nat.
Proof.
  assert (Hok : match run Reference.python2 Reference.libm (fun _ _ _ => Ok Reference.toy)
                        (fun _ _ _ => Ok []) TiModel 0 ["md.tol=-1"] ∅ with
                | Ok _ => True
                | Raise _ => False
                end) by (vm_compute; exact I).
  destruct (run Reference.python2 Reference.libm (fun _ _ _ => Ok Reference.toy)
                (fun _ _ _ => Ok []) TiModel 0 ["md.tol=-1"] ∅)
    as [out|e] eqn:E; [| destruct Hok].
  exists out. split; [reflexivity |].
  refine (proj1 (nonpositive_tol_runs_all_rounds _ _ _ _ _ _ _ _ _
                   (VFloat (-1)%float) E _ _)).
  - vm_compute. reflexivity.
  - left. exists (-1)%float. split; reflexivity.
Defined.

(** ** Switches *)

Section Switches.

Variable B : Builtins.

(** The value texts that turn a switch off. *)
Lemma truthy_convert (value : string) :
  truthy (convert B value) = false <->
  value = "False" \/
  (value <> "True" /\
   ((exists f, float_of_str B value = Some f /\ PrimFloat.eqb f 0 = true) \/
    (float_of_str B value = None /\ value = ""))).
Proof.
  unfold convert.
  destruct (String.eqb value "True") eqn:Et.
  { apply String.eqb_eq in Et. subst value. cbn. split; [discriminate |].
    intros [H | [H _]]; [discriminate | by destruct H]. }
  apply String.eqb_neq in Et.
  destruct (String.eqb value "False") eqn:Ef.
  { apply String.eqb_eq in Ef. subst value. cbn. split; [by left | reflexivity]. }
  apply String.eqb_neq in Ef.
  destruct (float_of_str B value) as [f|] eqn:Efl; cbn [truthy].
  - rewrite negb_false_iff. split.
    + intros H. right. split; [exact Et |]. left. by exists f.
    + intros [H | [_ [(g & [= <-] & Hg) | [H _]]]]; [done | exact Hg | discriminate].
  - rewrite negb_false_iff, String.eqb_eq. split.
    + intros ->. right. split; [exact Et |]. by right.
    + intros [H | [_ [(g & H & _) | [_ H]]]]; [done | discriminate | exact H].
Qed.

Lemma mesh_box_maxY (sc : script) (ndp md : gmap string pyval) (box : MeshBox)
    (stickyAir : pyval) :
  mesh_box B sc ndp md = Ok box ->
  md !! "stickyAir" = Some stickyAir ->
  Some (maxY box) =
  if truthy stickyAir then Some (VFloat 1.1)
  else match sc with
       | Isotropic => ndp !! "depth"
       | TiModel => Some (VFloat 1)
       end.
Proof.
  intros H Hs. unfold mesh_box in H.
  destruct sc; inv_result H; simplify_eq; cbv beta iota zeta in H; inv_result H;
    match goal with
    | E : PyOps.attr md "stickyAir" = Ok _ |- _ =>
        unfold PyOps.attr in E; rewrite Hs in E; injection E as <-
    end;
    injection H as <-; cbn [maxY];
    destruct (truthy stickyAir); try reflexivity.
  symmetry. by apply attr_ok.
Qed.

End Switches.

(** X10.  The switch [md.stickyAir] set from the command line.  The converted
    value counts as off exactly for the text ['False'], for a text that
    [float()] reads as zero, and for the empty text; any other text, such as
    ['false'] or ['no'], stays a non-empty string and switches the sticky-air
    layer on.  The mesh then reaches up to 1.1; otherwise up to [ndp.depth]
    (isotropic.py) or 1.0 (ti_model.py). *)
Theorem sticky_air_switch (B : Builtins) (sc : script) (ndp : gmap string pyval)
    (s : dicts) (value : string) (box : MeshBox) :
  PyStr.has_char "=" value = false ->
  mesh_box B sc ndp (md (override_token B (token "md" "stickyAir" "=" value) s)) = Ok box ->
  (truthy (convert B value) = false <->
   value = "False" \/
   (value <> "True" /\
    ((exists f, float_of_str B value = Some f /\ PrimFloat.eqb f 0 = true) \/
     (float_of_str B value = None /\ value = "")))) /\
  Some (maxY box) =
  if truthy (convert B value) then Some (VFloat 1.1)
  else match sc with
       | Isotropic => ndp !! "depth"
       | TiModel => Some (VFloat 1)
       end.
Proof.
  intros Hv Hbox. split; [apply truthy_convert |].
  apply (mesh_box_maxY B sc ndp _ box (convert B value) Hbox).
  rewrite (override_token_assign_parsed B MD _ "stickyAir" value).
  - cbn. apply lookup_insert_eq.
  - by apply contains_assign.
  - by apply parse_assign.
  - reflexivity.
Qed.

Lemma sticky_air_switch_witness :
  exists box,
    mesh_box Reference.python2 TiModel ∅
      (md (override_token Reference.python2 "md.stickyAir=false" (defaults TiModel)))
    = Ok box /\
    maxY box = VFloat 1.1.
Proof.
  assert (Hok : match mesh_box Reference.python2 TiModel ∅
                        (md (override_token Reference.python2 "md.stickyAir=false"
                               (defaults TiModel))) with
                | Ok _ => True
                | Raise _ => False
                end) by (vm_compute; exact I).
  destruct (mesh_box Reference.python2 TiModel ∅
              (md (override_token Reference.python2 "md.stickyAir=false" (defaults TiModel))))
    as [box|e] eqn:E; [| destruct Hok].
  exists box. split; [reflexivity |].
  destruct (sticky_air_switch Reference.python2 TiModel ∅ (defaults TiModel)
              "false" box eq_refl E) as [_ H].
  change (truthy (convert Reference.python2 "false")) with true in H.
  by injection H.
Defined.

(** ** Nearest neighbours *)

(** X11.  [nn_evaluation] and the [tree] attribute.  The particles are never
    changed.  With no query point the result is a pair of empty lists and the
    swarm is left as it is.  Otherwise the swarm leaves with a tree: the one
    it came with, or one built from its particles when it had none.  A swarm
    that comes with a tree is answered from that tree whatever its particle
    coordinates are now. *)
Theorem nn_evaluation_tree_cache {F T : Type} (A : Arith F) (float_of_nat : nat -> F)
    (kdTree : list (F * F) -> T)
    (query : T -> list (F * F) -> nat -> result (ndarray F * ndarray nat))
    (row_sum : list F -> F)
    (fromSwarm : Swarm F T) (toSwarm : list (F * F)) (n : nat) (weighted : bool) :
  let out := nn_evaluation A float_of_nat kdTree query row_sum fromSwarm toSwarm n weighted in
  particleCoordinates out.2 = particleCoordinates fromSwarm /\
  (toSwarm = [] -> out = (Ok (Arr1 [], Arr1 []), fromSwarm)) /\
  (toSwarm <> [] ->
   tree out.2 = Some (default (kdTree (particleCoordinates fromSwarm)) (tree fromSwarm))) /\
  (forall t coords,
     tree fromSwarm = Some t ->
     (nn_evaluation A float_of_nat kdTree query row_sum
        {| particleCoordinates := coords; tree := Some t |} toSwarm n weighted).1 = out.1).
Proof.
  intros out. subst out. unfold nn_evaluation.
  destruct toSwarm as [|p toSwarm].
  { cbn. repeat split; try done. }
  cbn [length Nat.ltb Nat.leb].
  split; [| split; [| split]].
  - by destruct (query _ _ _) as [[d ix]|e].
  - discriminate.
  - intros _. destruct (tree fromSwarm) as [t|];
      by destruct (query _ _ _) as [[d ix]|e].
  - intros t coords ->. cbn [tree].
    by destruct (query t (p :: toSwarm) n) as [[d ix]|e].
Qed.

Lemma nn_evaluation_tree_cache_witness :
  tree (nn_evaluation binary64 (fun _ => 1%float) (fun l => length l)
          (fun _ _ _ => Raise ValueError) (fun _ => 0%float)
          {| particleCoordinates := [(0, 0); (1, 1)]%float; tree := None |}
          [(0, 1)%float] 1 false).2
  = Some 2%nat.
Proof.
  apply (nn_evaluation_tree_cache binary64 (fun _ => 1%float) (fun l => length l)
           (fun _ _ _ => Raise ValueError) (fun _ => 0%float)
           {| particleCoordinates := [(0, 0); (1, 1)]%float; tree := None |}
           [(0, 1)%float] 1 false).
  discriminate.
Defined.

(** ** The shear-band points *)

Section ShearBandFacts.

Variable in_domain : float * float -> bool.
Variable update_particle_owners : list (float * float) -> list (float * float).

(** Particles that left the mesh are dropped, the others stay. *)
Hypothesis owners : forall data,
  update_particle_owners data ≡ₚ filter (fun p => in_domain p = true) data.
Hypothesis far_away : in_domain (1e20, 1e20)%float = false.

Lemma filter_move_out (mask : float * float -> bool) (data : list (float * float)) :
  Forall (fun p => in_domain p = true) data ->
  filter (fun p => in_domain p = true) (move_out mask data)
  = filter (fun p => mask p = false) data.
Proof using far_away.
  induction 1 as [|p data Hp Hdata IH]; [reflexivity |].
  cbn [move_out map]. destruct (mask p) eqn:E.
  - rewrite filter_cons_False by (by rewrite far_away).
    rewrite (filter_cons_False (fun p => mask p = false)) by (by rewrite E).
    exact IH.
  - rewrite filter_cons_True by exact Hp.
    rewrite (filter_cons_True (fun p => mask p = false)) by exact E.
    f_equal. exact IH.
Qed.

Lemma pass_filter (mask : float * float -> bool) (data : list (float * float)) :
  Forall (fun p => in_domain p = true) data ->
  update_particle_owners (move_out mask data) ≡ₚ filter (fun p => mask p = false) data /\
  Forall (fun p => in_domain p = true) (update_particle_owners (move_out mask data)).
Proof using owners far_away.
  intros H.
  assert (E : update_particle_owners (move_out mask data)
              ≡ₚ filter (fun p => mask p = false) data).
  { rewrite owners. by rewrite filter_move_out. }
  split; [exact E |]. rewrite E.
  apply Forall_forall. intros p Hp. apply list_elem_of_filter in Hp as [_ Hp].
  by apply (proj1 (Forall_forall _ _) H).
Qed.

End ShearBandFacts.

(** X16.  The three passes over [shearbandswarm] amount to one selection.
    When [update_particle_owners] drops exactly the particles outside the
    mesh, the point (1e20, 1e20) is outside it and the swarm starts inside
    it, the particles left are those of the start whose strain rate invariant
    is not below the threshold, that are not outside the layer and not right
    of the notch.  Binary64 comparisons: a particle whose strain rate is NaN
    stays. *)
Theorem shear_band_points_filter
    (strainRate_2ndInvariantFn : float * float -> float)
    (in_domain : float * float -> bool)
    (update_particle_owners : list (float * float) -> list (float * float))
    (sc : script) (eII_sig asthenosphere notchWidth minX : float)
    (data : list (float * float)) :
  (forall l, update_particle_owners l ≡ₚ filter (fun p => in_domain p = true) l) ->
  in_domain (1e20, 1e20)%float = false ->
  Forall (fun p => in_domain p = true) data ->
  shear_band_points strainRate_2ndInvariantFn update_particle_owners sc
    eII_sig asthenosphere notchWidth minX data
  ≡ₚ filter (fun p => in_shear_band strainRate_2ndInvariantFn sc
                        eII_sig asthenosphere notchWidth minX p = true) data.
Proof.
  intros Hown Hfar Hdata. unfold shear_band_points. cbv zeta.
  destruct (pass_filter in_domain update_particle_owners Hown Hfar
              (low_strain_rate strainRate_2ndInvariantFn eII_sig) data Hdata)
    as [E1 H1].
  destruct (pass_filter in_domain update_particle_owners Hown Hfar
              (outside_layer sc asthenosphere notchWidth minX) _ H1)
    as [E2 H2].
  destruct (pass_filter in_domain update_particle_owners Hown Hfar
              (right_of_notch notchWidth) _ H2)
    as [E3 _].
  rewrite E3, E2, E1, !list_filter_filter.
  erewrite list_filter_iff; [reflexivity |].
  intros p. unfold in_shear_band.
  rewrite !andb_true_iff, !negb_true_iff. tauto.
Qed.

Lemma shear_band_points_filter_witness :
  shear_band_points (fun p => 1%float)
    (fun l => filter (fun p => PrimFloat.ltb p.1 10 = true) l)
    Isotropic 0.5 0.25 0.0625 (-2) [(-0.5, 0.5); (1, 0.5)]%float
  ≡ₚ filter (fun p => in_shear_band (fun p => 1%float) Isotropic 0.5 0.25 0.0625 (-2) p = true)
       [(-0.5, 0.5); (1, 0.5)]%float.
Proof.
  apply (shear_band_points_filter (fun p => 1%float) (fun p => PrimFloat.ltb p.1 10)).
  - reflexivity.
  - reflexivity.
  - repeat constructor.
Defined.

(** ** Inside and outside the shear band *)

Lemma SFltb_asym (x y : spec_float) : SFltb x y = true -> SFltb y x = false.
Proof.
  unfold SFltb.
  destruct x as [s1|s1| |s1 m1 e1], y as [s2|s2| |s2 m2 e2];
    try (destruct s1, s2; cbn; congruence);
    try (destruct s1; cbn; congruence);
    try (destruct s2; cbn; congruence);
    try (cbn; congruence).
  cbn [SFcompare].
  change (Pos.compare_cont Eq m2 m1) with (Pos.compare_cont (CompOpp Eq) m2 m1).
  rewrite <- (Pos.compare_cont_antisym m1 m2 Eq), (Z.compare_antisym e1 e2).
  destruct s1, s2, (e1 ?= e2), (Pos.compare_cont Eq m1 m2); cbn; congruence.
Qed.

Lemma ltb_asym (x y : float) : PrimFloat.ltb x y = true -> PrimFloat.ltb y x = false.
Proof. rewrite !ltb_spec. apply SFltb_asym. Qed.

(** X17.  The two indicator functions behind the shear-band and background
    integrals never overlap.  At every point one of them is 1 and the other
    0, or both are 0; their product is 0.  Both are 0 exactly at or below the
    notch line, or where the strain rate invariant is neither above nor below
    the threshold (equal to it, or NaN), so such points count for neither
    integral. *)
Theorem shear_and_background_disjoint
    (strainRate_2ndInvariantFn : float * float -> float)
    (eII_sig asthenosphere notchWidth : float) (coord : float * float) :
  let inside := _2sigRest strainRate_2ndInvariantFn eII_sig asthenosphere notchWidth coord in
  let outside :=
    _out2sigRest strainRate_2ndInvariantFn eII_sig asthenosphere notchWidth coord in
  let eII := strainRate_2ndInvariantFn coord in
  ((inside = 1%float /\ outside = 0%float) \/
   (inside = 0%float /\ outside = 1%float) \/
   (inside = 0%float /\ outside = 0%float)) /\
  PrimFloat.mul inside outside = 0%float /\
  (inside = 0%float /\ outside = 0%float <->
   PrimFloat.ltb (asthenosphere + notchWidth) coord.2 = false \/
   (PrimFloat.ltb eII_sig eII = false /\ PrimFloat.ltb eII eII_sig = false)).
Proof.
  intros inside outside eII. subst inside outside. unfold _2sigRest, _out2sigRest.
  fold eII.
  assert (H10 : 1%float <> 0%float).
  { intros H. apply (f_equal (fun z => PrimFloat.eqb z 0)) in H. vm_compute in H.
    discriminate H. }
  destruct (PrimFloat.ltb eII_sig eII) eqn:E1.
  - rewrite (ltb_asym _ _ E1).
    destruct (PrimFloat.ltb (asthenosphere + notchWidth) coord.2); cbn [andb].
    + split; [by left |]. split; [reflexivity |].
      split; [by intros [H _] | by intros [H | [H _]]].
    + split; [by right; right |]. split; [reflexivity |].
      split; [by left | done].
  - destruct (PrimFloat.ltb eII eII_sig) eqn:E2;
    destruct (PrimFloat.ltb (asthenosphere + notchWidth) coord.2); cbn [andb].
    + split; [by right; left |]. split; [reflexivity |].
      split; [by intros [_ H] | by intros [H | [_ H]]].
    + split; [by right; right |]. split; [reflexivity |].
      split; [by left | done].
    + split; [by right; right |]. split; [reflexivity |].
      split; [by right | done].
    + split; [by right; right |]. split; [reflexivity |].
      split; [by left | done].
Qed.
